(** * The cascaded nonlinear flight controller of [controller.py]

    A shallow embedding of [controller.py] and the properties of its
    stages: the scalar feedback laws, the trajectory sampler, the
    lateral, altitude, roll-pitch, body-rate and yaw stages.

    Numbers.  A Python float (and a numpy float64) is modelled by an
    exact rational [Q]: the arithmetic of the control laws is the
    arithmetic of the field, and equality of results is [==].  Rounding
    and overflow of binary64 are outside this model; the stages whose
    properties turn on them are embedded a second time, on the binary64
    numbers themselves, in the module [B64].  What the exact model
    keeps of the machine is that a division or a modulo by zero does not
    produce a number (an exception on Python floats, inf or nan on numpy
    values): every [/] and [%] of the source is a fallible operation
    here, and a stage returns [Ok v] only if none of the divisions it
    performs has a zero divisor.

    Arrays.  The numpy arrays of the source have a fixed small shape
    (2, 3, 2x2, 3x3); they are records of rationals.  Python lists keep
    Python's indexing, negative indices included.

    The rotation matrix.  [euler2RM] is imported from [frame_utils]; the
    stages that call it take it as a parameter. *)

From Stdlib Require Import QArith Qround Qabs Qminmax Lqa Lia List ZArith Bool.
From Stdlib Require Import SpecFloat.
Import ListNotations.
Open Scope Q_scope.

(** ** Outcome of a call: a value, or the reason why there is none *)

Inductive error : Set :=
| ValueError     (* np.argmin of an empty sequence *)
| IndexError     (* list index out of range *)
| DivisionByZero (* x / 0, x % 0: Python raises ZeroDivisionError,
                    numpy warns and gives inf or nan *).

Inductive result (A : Type) : Type :=
| Ok (a : A)
| Err (e : error).
Arguments Ok {A} a.
Arguments Err {A} e.

Definition bind {A B : Type} (c : result A) (k : A -> result B) : result B :=
  match c with
  | Ok a => k a
  | Err e => Err e
  end.

Notation "x <- c ;; k" := (bind c (fun x => k))
  (at level 61, c at next level, right associativity).
Notation "' p <- c ;; k" := (bind c (fun x => match x with p => k end))
  (at level 61, p pattern, c at next level, right associativity).

(** ** Python and numpy primitives on numbers *)

(** [x < y] as the test of an [if]. *)
Definition Qltb (x y : Q) : bool := negb (Qle_bool y x).

(** [x / y] *)
Definition py_div (x y : Q) : result Q :=
  if Qeq_bool y 0 then Err DivisionByZero else Ok (x / y).

(** [x % y] on floats: the remainder has the sign of the divisor,
    [x - y * floor (x / y)]. *)
Definition py_mod (x y : Q) : result Q :=
  if Qeq_bool y 0 then Err DivisionByZero
  else Ok (x - y * inject_Z (Qfloor (x / y))).

(** [np.clip(x, lo, hi)] is [minimum(maximum(x, lo), hi)]. *)
Definition np_clip (x lo hi : Q) : Q := Qmin (Qmax x lo) hi.

(** ** Python lists *)

(** [l[i]]: a negative index counts from the end of the list. *)
Definition py_getitem {A : Type} (l : list A) (i : Z) : result A :=
  let n := Z.of_nat (length l) in
  let j := (if i <? 0 then i + n else i)%Z in
  if ((0 <=? j) && (j <? n))%Z then
    match nth_error l (Z.to_nat j) with
    | Some a => Ok a
    | None => Err IndexError
    end
  else Err IndexError.

(** [np.argmin]: the index of the first occurrence of the minimum. *)
Fixpoint argmin_from (best : Q) (ibest : nat) (i : nat) (l : list Q) : nat :=
  match l with
  | [] => ibest
  | x :: l' =>
      if Qltb x best then argmin_from x i (S i) l'
      else argmin_from best ibest (S i) l'
  end.

Definition np_argmin (l : list Q) : result nat :=
  match l with
  | [] => Err ValueError
  | x :: l' => Ok (argmin_from x 0%nat 1%nat l')
  end.

(** ** numpy arrays of the shapes the controller uses *)

Record vec2 : Set := mk2 { x2 : Q; y2 : Q }.
Record vec3 : Set := mk3 { x3 : Q; y3 : Q; z3 : Q }.
Record mat2 : Set := mk22 { m00 : Q; m01 : Q; m10 : Q; m11 : Q }.
Record mat3 : Set := mk33 {
  r00 : Q; r01 : Q; r02 : Q;
  r10 : Q; r11 : Q; r12 : Q;
  r20 : Q; r21 : Q; r22 : Q }.

Definition veq2 (u v : vec2) : Prop := x2 u == x2 v /\ y2 u == y2 v.
Definition veq3 (u v : vec3) : Prop :=
  x3 u == x3 v /\ y3 u == y3 v /\ z3 u == z3 v.

Definition vadd3 (u v : vec3) : vec3 :=
  mk3 (x3 u + x3 v) (y3 u + y3 v) (z3 u + z3 v).
Definition vsub3 (u v : vec3) : vec3 :=
  mk3 (x3 u - x3 v) (y3 u - y3 v) (z3 u - z3 v).
(** array * scalar *)
Definition vscale3 (u : vec3) (s : Q) : vec3 :=
  mk3 (x3 u * s) (y3 u * s) (z3 u * s).
(** array / scalar *)
Definition vdiv3 (u : vec3) (s : Q) : result vec3 :=
  a <- py_div (x3 u) s ;;
  b <- py_div (y3 u) s ;;
  c <- py_div (z3 u) s ;;
  Ok (mk3 a b c).
(** scalar * array *)
Definition smul2 (s : Q) (u : vec2) : vec2 := mk2 (s * x2 u) (s * y2 u).
(** [np.matmul] of a 2x2 matrix and a 2-vector *)
Definition np_matmul (M : mat2) (v : vec2) : vec2 :=
  mk2 (m00 M * x2 v + m01 M * y2 v) (m10 M * x2 v + m11 M * y2 v).

(** ** Module constants *)

Definition DRONE_MASS_KG : Q := 5 # 10.
Definition GRAVITY : Q := - (981 # 100).
Definition MOI : vec3 := mk3 (5 # 1000) (5 # 1000) (1 # 100).
Definition MAX_THRUST : Q := 10.
Definition MAX_TORQUE : Q := 1.
Definition EPSILON : Q := 1 # 10000.
Definition MAX_TILT : Q := 1.

(** [np.pi] is the binary64 number nearest to pi,
    7074237752028440 * 2^-51. *)
Definition np_pi : Q := 884279719003555 # 281474976710656.

(** ** The scalar feedback laws *)

Record PDController : Set := { k_p : Q; k_d : Q }.

Definition PDController_init (kp kd : Q) : PDController :=
  {| k_p := kp; k_d := kd |}.

Definition PDController_control (self : PDController)
    (error error_dot feed_forward : Q) : Q :=
  k_p self * error + k_d self * error_dot + feed_forward.

(** [class PController(PDController)]: the parent with [k_d = 0.0]. *)
Record PController : Set := { super : PDController }.

Definition PController_init (kp : Q) : PController :=
  {| super := PDController_init kp 0 |}.

Definition PController_control (self : PController) (error : Q) : Q :=
  PDController_control (super self) error 0 0.

(** ** normalize_angle *)

Definition normalize_angle (x : Q) : result Q :=
  x <- py_mod (x + np_pi) (2 * np_pi) ;;
  let x := if Qltb x 0 then x + 2 * np_pi else x in
  Ok (x - np_pi).

(** ** The controller object *)

Record NonlinearController : Set := {
  altitude_controller_ : PDController;
  yaw_controller_ : PController;
  p_controller_ : PController;
  q_controller_ : PController;
  r_controller_ : PController;
  roll_controller_ : PController;
  pitch_controller_ : PController;
  x_controller_ : PDController;
  y_controller_ : PDController }.

Definition NonlinearController_init : NonlinearController :=
  let pq_controller := PController_init 20 in
  let roll_pitch_controller := PController_init 8 in
  let xy_controller := PDController_init 5 4 in
  {| altitude_controller_ := PDController_init 8 4;
     yaw_controller_ := PController_init (55 # 10);
     p_controller_ := pq_controller;
     q_controller_ := pq_controller;
     r_controller_ := PController_init (75 # 10);
     roll_controller_ := roll_pitch_controller;
     pitch_controller_ := roll_pitch_controller;
     x_controller_ := xy_controller;
     y_controller_ := xy_controller |}.

(** ** trajectory_control *)

Definition trajectory_control
    (position_trajectory : list vec3) (yaw_trajectory : list Q)
    (time_trajectory : list Q) (current_time : Q)
    : result (vec3 * vec3 * Q) :=
  ind_min <- np_argmin
               (map (fun t => Qabs (t - current_time)) time_trajectory) ;;
  let ind_min := Z.of_nat ind_min in
  time_ref <- py_getitem time_trajectory ind_min ;;
  '(position0, position1, time0, time1, yaw_cmd) <-
    (if Qltb current_time time_ref then
       position0 <- py_getitem position_trajectory (ind_min - 1) ;;
       position1 <- py_getitem position_trajectory ind_min ;;
       time0 <- py_getitem time_trajectory (ind_min - 1) ;;
       time1 <- py_getitem time_trajectory ind_min ;;
       yaw_cmd <- py_getitem yaw_trajectory (ind_min - 1) ;;
       Ok (position0, position1, time0, time1, yaw_cmd)
     else
       yaw_cmd <- py_getitem yaw_trajectory ind_min ;;
       if (Z.of_nat (length position_trajectory) - 1 <=? ind_min)%Z then
         position0 <- py_getitem position_trajectory ind_min ;;
         position1 <- py_getitem position_trajectory ind_min ;;
         Ok (position0, position1, 0, 1, yaw_cmd)
       else
         position0 <- py_getitem position_trajectory ind_min ;;
         position1 <- py_getitem position_trajectory (ind_min + 1) ;;
         time0 <- py_getitem time_trajectory ind_min ;;
         time1 <- py_getitem time_trajectory (ind_min + 1) ;;
         Ok (position0, position1, time0, time1, yaw_cmd)) ;;
  scaled <- vdiv3 (vscale3 (vsub3 position1 position0) (current_time - time0))
                  (time1 - time0) ;;
  let position_cmd := vadd3 scaled position0 in
  velocity_cmd <- vdiv3 (vsub3 position1 position0) (time1 - time0) ;;
  Ok (position_cmd, velocity_cmd, yaw_cmd).

(** ** lateral_position_control *)

Definition lateral_position_control (self : NonlinearController)
    (local_position_cmd local_velocity_cmd local_position local_velocity
       acceleration_ff : vec2) : vec2 :=
  let acc_x := PDController_control (x_controller_ self)
                 (x2 local_position_cmd - x2 local_position)
                 (x2 local_velocity_cmd - x2 local_velocity)
                 (x2 acceleration_ff) in
  let acc_y := PDController_control (y_controller_ self)
                 (y2 local_position_cmd - y2 local_position)
                 (y2 local_velocity_cmd - y2 local_velocity)
                 (y2 acceleration_ff) in
  mk2 acc_x acc_y.

(** ** body_rate_control *)

Definition body_rate_control (self : NonlinearController)
    (body_rate_cmd body_rate : vec3) : vec3 :=
  let moment_p := x3 MOI * PController_control (p_controller_ self)
                             (x3 body_rate_cmd - x3 body_rate) in
  let moment_q := y3 MOI * PController_control (q_controller_ self)
                             (y3 body_rate_cmd - y3 body_rate) in
  let moment_r := z3 MOI * PController_control (r_controller_ self)
                             (z3 body_rate_cmd - z3 body_rate) in
  let moment_p := np_clip moment_p (- MAX_TORQUE) MAX_TORQUE in
  let moment_q := np_clip moment_q (- MAX_TORQUE) MAX_TORQUE in
  let moment_r := np_clip moment_r (- MAX_TORQUE) MAX_TORQUE in
  mk3 moment_p moment_q moment_r.

(** ** yaw_control *)

Definition yaw_control (self : NonlinearController) (yaw_cmd yaw : Q)
    : result Q :=
  error <- normalize_angle (yaw_cmd - yaw) ;;
  Ok (PController_control (yaw_controller_ self) error).

(** ** The stages that read the attitude *)

Section Attitude.

(** [euler2RM(roll, pitch, yaw)] of [frame_utils]. *)
Variable euler2RM : Q -> Q -> Q -> mat3.

(** The messages printed on the degenerate branches are not part of the
    value returned and are left out. *)
Definition altitude_control (self : NonlinearController)
    (altitude_cmd vertical_velocity_cmd altitude vertical_velocity : Q)
    (attitude : vec3) (acceleration_ff : Q) : result Q :=
  let thrust := 0 in
  let R := euler2RM (x3 attitude) (y3 attitude) (z3 attitude) in
  let b_z := r22 R in
  if Qltb EPSILON (Qabs b_z) then
    let error_z := altitude_cmd - altitude in
    let error_z_dot := vertical_velocity_cmd - vertical_velocity in
    let u_1_bar := PDController_control (altitude_controller_ self)
                     error_z error_z_dot acceleration_ff in
    thrust <- py_div (DRONE_MASS_KG * u_1_bar) b_z ;;
    let thrust := np_clip thrust 0 MAX_THRUST in
    Ok thrust
  else
    Ok thrust.

Definition roll_pitch_controller (self : NonlinearController)
    (acceleration_cmd : vec2) (attitude : vec3) (thrust_cmd : Q)
    : result vec2 :=
  let roll_pitch_rate_cmd := mk2 0 0 in
  if Qltb EPSILON (Qabs thrust_cmd) then
    let R := euler2RM (x3 attitude) (y3 attitude) (z3 attitude) in
    if Qltb EPSILON (Qabs (r22 R)) then
      let b_a_x := r02 R in
      let b_a_y := r12 R in
      acc_per_thrust <- py_div (- thrust_cmd) DRONE_MASS_KG ;;
      b_c_x <- py_div (x2 acceleration_cmd) acc_per_thrust ;;
      acc_per_thrust <- py_div (- thrust_cmd) DRONE_MASS_KG ;;
      b_c_y <- py_div (y2 acceleration_cmd) acc_per_thrust ;;
      let b_c_x := np_clip b_c_x (- MAX_TILT) MAX_TILT in
      let b_c_y := np_clip b_c_y (- MAX_TILT) MAX_TILT in
      let b_c_x_dot := PController_control (roll_controller_ self)
                         (b_c_x - b_a_x) in
      let b_c_y_dot := PController_control (pitch_controller_ self)
                         (b_c_y - b_a_y) in
      let M := mk22 (r10 R) (- r00 R)
                    (r11 R) (- r01 R) in
      let b_c_dot := mk2 b_c_x_dot b_c_y_dot in
      inv_r22 <- py_div 1 (r22 R) ;;
      Ok (smul2 inv_r22 (np_matmul M b_c_dot))
    else
      Ok roll_pitch_rate_cmd
  else
    Ok roll_pitch_rate_cmd.

End Attitude.

(** * Vocabulary of the properties *)

(** [k] is the index of the first occurrence of the minimum of [l]. *)
Definition first_min (l : list Q) (k : nat) : Prop :=
  (k < length l)%nat /\
  (forall j, (j < length l)%nat -> nth k l 0 <= nth j l 0) /\
  (forall j, (j < k)%nat -> nth k l 0 < nth j l 0).

(** [np.array([0.0, 0.0, 0.0])] *)
Definition zero3 : vec3 := mk3 0 0 0.

(** The quotient of an array by a non-zero scalar. *)
Definition vquot3 (u : vec3) (s : Q) : vec3 :=
  mk3 (x3 u / s) (y3 u / s) (z3 u / s).

(** The distances [np.abs(np.array(time_trajectory) - current_time)]. *)
Definition time_distances (time_trajectory : list Q) (current_time : Q)
    : list Q :=
  map (fun t => Qabs (t - current_time)) time_trajectory.

(** The commands computed from the two samples chosen by a branch. *)
Definition interpolation (position0 position1 : vec3) (time0 time1 : Q)
    (current_time : Q) : vec3 * vec3 :=
  (vadd3 (vquot3 (vscale3 (vsub3 position1 position0) (current_time - time0))
                 (time1 - time0)) position0,
   vquot3 (vsub3 position1 position0) (time1 - time0)).

(** [ind] is the index of the sample nearest to [current_time], the
    first one if several are at the same distance. *)
Definition nearest (time_trajectory : list Q) (current_time : Q) (ind : nat)
    : Prop :=
  first_min (time_distances time_trajectory current_time) ind.

(** The timestamps increase strictly from each sample to the next. *)
Fixpoint strictly_increasing (l : list Q) : bool :=
  match l with
  | a :: (b :: _) as l' => Qltb a b && strictly_increasing l'
  | _ => true
  end.

(** Case analysis on the next fallible step of a computation that is
    known to have returned. *)
Ltac step_bind H :=
  match type of H with
  | context [bind (py_getitem ?l ?i) _] =>
      destruct (py_getitem l i) eqn:?; cbn [bind] in H; try discriminate H
  | context [bind (vdiv3 ?u ?s) _] =>
      destruct (vdiv3 u s) eqn:?; cbn [bind] in H; try discriminate H
  end.

(** The angle brought back into [[-pi, pi)]. *)
Definition wrap_angle (x : Q) : Q :=
  (x + np_pi) - (2 * np_pi) * inject_Z (Qfloor ((x + np_pi) / (2 * np_pi)))
  - np_pi.


(** An edge-on attitude: the third row of the matrix lies in the
    horizontal plane, b_z = 0. *)
Definition edge_on : mat3 :=
  mk33 1 0 0
       0 0 (-1)
       0 1 0.

(** The tilt target of one axis, in the words of the specification:
    the acceleration command divided by [-thrust_cmd / mass], clamped
    into [[-MAX_TILT, MAX_TILT]]. *)
Definition tilt_target (acceleration thrust_cmd : Q) : Q :=
  np_clip (acceleration / (- thrust_cmd / DRONE_MASS_KG))
          (- MAX_TILT) MAX_TILT.

(** The rates of the specification: [(1/R22) * M . b_c_dot] with
    [M = [[R10, -R00], [R11, -R01]]], written out by rows. *)
Definition mixed_rates (R : mat3) (b_c_x_dot b_c_y_dot : Q) : vec2 :=
  mk2 (1 / r22 R * (r10 R * b_c_x_dot + - r00 R * b_c_y_dot))
      (1 / r22 R * (r11 R * b_c_x_dot + - r01 R * b_c_y_dot)).

(** The level attitude: R is the identity and the mixing matrix is
    [[0, -1], [1, 0]]. *)
Definition level : mat3 :=
  mk33 1 0 0
       0 1 0
       0 0 1.

(** A pitched attitude: a rotation about the second axis with cosine
    4/5 and sine 3/5. *)
Definition pitched : mat3 :=
  mk33 (4 # 5) 0 (3 # 5)
       0 1 0
       (- (3 # 5)) 0 (4 # 5).

(** The rows of a rotation matrix are orthonormal. *)
Definition rotation_matrix (R : mat3) : Prop :=
  r00 R * r00 R + r01 R * r01 R + r02 R * r02 R == 1 /\
  r10 R * r10 R + r11 R * r11 R + r12 R * r12 R == 1 /\
  r20 R * r20 R + r21 R * r21 R + r22 R * r22 R == 1 /\
  r00 R * r10 R + r01 R * r11 R + r02 R * r12 R == 0 /\
  r00 R * r20 R + r01 R * r21 R + r02 R * r22 R == 0 /\
  r10 R * r20 R + r11 R * r21 R + r12 R * r22 R == 0.

(** A rotation about the first axis that leaves the vehicle almost
    edge-on: cosine 19999/199980001, just above EPSILON. *)
Definition nearly_edge_on : mat3 :=
  mk33 1 0 0
       0 (19999 # 199980001) (- (199980000 # 199980001))
       0 (199980000 # 199980001) (19999 # 199980001).

(** Some valid input makes a returned rate exceed [B] in magnitude:
    the attitude gives a rotation matrix and both guards pass. *)
Definition rates_exceed (B : Q) : Prop :=
  exists (euler2RM : Q -> Q -> Q -> mat3)
         (acceleration_cmd : vec2) (attitude : vec3) (thrust_cmd : Q)
         (rates : vec2),
    let R := euler2RM (x3 attitude) (y3 attitude) (z3 attitude) in
    rotation_matrix R /\
    EPSILON < Qabs thrust_cmd /\ EPSILON < Qabs (r22 R) /\
    roll_pitch_controller euler2RM NonlinearController_init acceleration_cmd
      attitude thrust_cmd = Ok rates /\
    (B < Qabs (x2 rates) \/ B < Qabs (y2 rates)).

(** * The same stages on binary64 numbers

    Where a property turns on a decision that rounding or overflow can
    change (which sample is nearest, on which side of the wrap an angle
    falls, whether a sum is a number at all), the code is embedded a
    second time on the binary64 numbers themselves: [spec_float] with
    53 bits of precision, the operations of IEEE 754 rounding to
    nearest even.  Infinities and NaN are values here, and a division
    by zero returns one of them, as numpy does. *)

Module B64.

Definition float : Set := spec_float.
Definition prec : Z := 53.
Definition emax : Z := 1024.

(** The positive number [m * 2^e]. *)
Definition pos (m : positive) (e : Z) : float := S754_finite false m e.
Definition zero : float := S754_zero false.
Definition nan : float := S754_nan.

Definition add : float -> float -> float := SFadd prec emax.
Definition sub : float -> float -> float := SFsub prec emax.
Definition mul : float -> float -> float := SFmul prec emax.
Definition div : float -> float -> float := SFdiv prec emax.
Definition neg : float -> float := SFopp.
Definition abs : float -> float := SFabs.
Definition ltb : float -> float -> bool := SFltb.
Definition leb : float -> float -> bool := SFleb.
Definition eqb : float -> float -> bool := SFeqb.

Definition is_nan (x : float) : bool :=
  match x with S754_nan => true | _ => false end.

Definition is_finite (x : float) : bool :=
  match x with S754_zero _ | S754_finite _ _ _ => true | _ => false end.

(** C's [fmod]: the remainder of the division of the magnitudes, exact,
    with the sign of [x]. *)
Definition fmod (x y : float) : float :=
  match x, y with
  | S754_nan, _ | _, S754_nan => S754_nan
  | S754_infinity _, _ => S754_nan
  | _, S754_zero _ => S754_nan
  | S754_zero _, _ => x
  | S754_finite _ _ _, S754_infinity _ => x
  | S754_finite sx mx ex, S754_finite _ my ey =>
      let e := Z.min ex ey in
      let a := Z.shiftl (Zpos mx) (ex - e) in
      let b := Z.shiftl (Zpos my) (ey - e) in
      match (a mod b)%Z with
      | Z0 => S754_zero sx
      | r => binary_normalize prec emax (cond_Zopp sx r) e false
      end
  end.

(** [x % y] on floats: [fmod], moved by [y] when its sign differs from
    the sign of [y]; a zero remainder takes the sign of [y].  For
    [y = 0] Python raises and numpy gives nan; the only divisor in the
    source is the constant [2.0*np.pi]. *)
Definition py_mod (x y : float) : float :=
  match fmod x y with
  | S754_zero _ =>
      match y with
      | S754_finite s _ _ | S754_infinity s | S754_zero s => S754_zero s
      | S754_nan => S754_nan
      end
  | m => if xorb (ltb y zero) (ltb m zero) then add m y else m
  end.

(** [np.clip(x, lo, hi)]: [min(max(x, lo), hi)], a nan [x] is returned
    as it is. *)
Definition np_clip (x lo hi : float) : float :=
  let y := if is_nan x then x else if ltb lo x then x else lo in
  if is_nan y then y else if ltb y hi then y else hi.

(** [np.argmin] on floats: the first index of the minimum; a nan counts
    as the minimum. *)
Fixpoint argmin_from (best : float) (ibest : nat) (i : nat) (l : list float)
    : nat :=
  match l with
  | [] => ibest
  | x :: l' =>
      if leb best x then argmin_from best ibest (S i) l'
      else if is_nan x then i
      else argmin_from x i (S i) l'
  end.

Definition np_argmin (l : list float) : result nat :=
  match l with
  | [] => Err ValueError
  | x :: l' => Ok (if is_nan x then 0%nat else argmin_from x 0%nat 1%nat l')
  end.

Record vec3 : Set := mk3 { x3 : float; y3 : float; z3 : float }.
Record mat3 : Set := mk33 {
  r00 : float; r01 : float; r02 : float;
  r10 : float; r11 : float; r12 : float;
  r20 : float; r21 : float; r22 : float }.

Definition vadd3 (u v : vec3) : vec3 :=
  mk3 (add (x3 u) (x3 v)) (add (y3 u) (y3 v)) (add (z3 u) (z3 v)).
Definition vsub3 (u v : vec3) : vec3 :=
  mk3 (sub (x3 u) (x3 v)) (sub (y3 u) (y3 v)) (sub (z3 u) (z3 v)).
Definition vscale3 (u : vec3) (s : float) : vec3 :=
  mk3 (mul (x3 u) s) (mul (y3 u) s) (mul (z3 u) s).
Definition vdiv3 (u : vec3) (s : float) : vec3 :=
  mk3 (div (x3 u) s) (div (y3 u) s) (div (z3 u) s).

(** All three coordinates are finite numbers. *)
Definition finite3 (p : vec3) : bool :=
  is_finite (x3 p) && is_finite (y3 p) && is_finite (z3 p).

(** Equality of numbers, coordinate by coordinate (0.0 == -0.0). *)
Definition eqb3 (u v : vec3) : bool :=
  eqb (x3 u) (x3 v) && eqb (y3 u) (y3 v) && eqb (z3 u) (z3 v).

(** The constants of the module, as the binary64 numbers their
    literals denote. *)
Definition one : float := pos 4503599627370496 (-52).
Definition two : float := pos 4503599627370496 (-51).
Definition DRONE_MASS_KG : float := pos 4503599627370496 (-53). (* 0.5 *)
Definition MAX_THRUST : float := pos 5629499534213120 (-49).    (* 10.0 *)
Definition EPSILON : float := pos 7378697629483821 (-66).       (* 1.0E-4 *)
Definition np_pi : float := pos 7074237752028440 (-51).

Record PDController : Set := { k_p : float; k_d : float }.

Definition PDController_control (self : PDController)
    (error error_dot feed_forward : float) : float :=
  add (add (mul (k_p self) error) (mul (k_d self) error_dot)) feed_forward.

Record PController : Set := { super : PDController }.

Definition PController_init (kp : float) : PController :=
  {| super := {| k_p := kp; k_d := zero |} |}.

Definition PController_control (self : PController) (error : float) : float :=
  PDController_control (super self) error zero zero.

Definition normalize_angle (x : float) : float :=
  let x := py_mod (add x np_pi) (mul two np_pi) in
  let x := if ltb x zero then add x (mul two np_pi) else x in
  sub x np_pi.

Record NonlinearController : Set := {
  altitude_controller_ : PDController;
  yaw_controller_ : PController;
  p_controller_ : PController;
  q_controller_ : PController;
  r_controller_ : PController;
  roll_controller_ : PController;
  pitch_controller_ : PController;
  x_controller_ : PDController;
  y_controller_ : PDController }.

Definition NonlinearController_init : NonlinearController :=
  let pq_controller := PController_init (pos 5629499534213120 (-48)) in
  let roll_pitch_controller := PController_init (pos 4503599627370496 (-49)) in
  let xy_controller :=
    {| k_p := pos 5629499534213120 (-50);
       k_d := pos 4503599627370496 (-50) |} in
  {| altitude_controller_ :=
       {| k_p := pos 4503599627370496 (-49);
          k_d := pos 4503599627370496 (-50) |};
     yaw_controller_ := PController_init (pos 6192449487634432 (-50));
     p_controller_ := pq_controller;
     q_controller_ := pq_controller;
     r_controller_ := PController_init (pos 8444249301319680 (-50));
     roll_controller_ := roll_pitch_controller;
     pitch_controller_ := roll_pitch_controller;
     x_controller_ := xy_controller;
     y_controller_ := xy_controller |}.

Definition yaw_control (self : NonlinearController) (yaw_cmd yaw : float)
    : float :=
  let error := normalize_angle (sub yaw_cmd yaw) in
  PController_control (yaw_controller_ self) error.

Definition altitude_control (euler2RM : float -> float -> float -> mat3)
    (self : NonlinearController)
    (altitude_cmd vertical_velocity_cmd altitude vertical_velocity : float)
    (attitude : vec3) (acceleration_ff : float) : float :=
  let thrust := zero in
  let R := euler2RM (x3 attitude) (y3 attitude) (z3 attitude) in
  let b_z := r22 R in
  if ltb EPSILON (abs b_z) then
    let error_z := sub altitude_cmd altitude in
    let error_z_dot := sub vertical_velocity_cmd vertical_velocity in
    let u_1_bar := PDController_control (altitude_controller_ self)
                     error_z error_z_dot acceleration_ff in
    let thrust := div (mul DRONE_MASS_KG u_1_bar) b_z in
    let thrust := np_clip thrust zero MAX_THRUST in
    thrust
  else
    thrust.

Definition trajectory_control
    (position_trajectory : list vec3) (yaw_trajectory : list float)
    (time_trajectory : list float) (current_time : float)
    : result (vec3 * vec3 * float) :=
  ind_min <- np_argmin
               (map (fun t => abs (sub t current_time)) time_trajectory) ;;
  let ind_min := Z.of_nat ind_min in
  time_ref <- py_getitem time_trajectory ind_min ;;
  '(position0, position1, time0, time1, yaw_cmd) <-
    (if ltb current_time time_ref then
       position0 <- py_getitem position_trajectory (ind_min - 1) ;;
       position1 <- py_getitem position_trajectory ind_min ;;
       time0 <- py_getitem time_trajectory (ind_min - 1) ;;
       time1 <- py_getitem time_trajectory ind_min ;;
       yaw_cmd <- py_getitem yaw_trajectory (ind_min - 1) ;;
       Ok (position0, position1, time0, time1, yaw_cmd)
     else
       yaw_cmd <- py_getitem yaw_trajectory ind_min ;;
       if (Z.of_nat (length position_trajectory) - 1 <=? ind_min)%Z then
         position0 <- py_getitem position_trajectory ind_min ;;
         position1 <- py_getitem position_trajectory ind_min ;;
         Ok (position0, position1, zero, one, yaw_cmd)
       else
         position0 <- py_getitem position_trajectory ind_min ;;
         position1 <- py_getitem position_trajectory (ind_min + 1) ;;
         time0 <- py_getitem time_trajectory ind_min ;;
         time1 <- py_getitem time_trajectory (ind_min + 1) ;;
         Ok (position0, position1, time0, time1, yaw_cmd)) ;;
  let position_cmd :=
    vadd3 (vdiv3 (vscale3 (vsub3 position1 position0)
                    (sub current_time time0))
                 (sub time1 time0)) position0 in
  let velocity_cmd := vdiv3 (vsub3 position1 position0) (sub time1 time0) in
  Ok (position_cmd, velocity_cmd, yaw_cmd).

(** Numbers used in the examples. *)
Definition level : mat3 :=
  mk33 one zero zero
       zero one zero
       zero zero one.
Definition f_1e308 : float := pos 5010420900022432 971.
Definition f_1e17 : float := pos 6250000000000000 4.
Definition f_3 : float := pos 6755399441055744 (-51).

End B64.

(** * Properties *)

(** ** Tests and fallible arithmetic *)

Lemma Qltb_lt (x y : Q) : Qltb x y = true <-> x < y.
Proof.
  unfold Qltb. rewrite negb_true_iff.
  split; intro H.
  - apply Qnot_le_lt. intro Hle. apply Qle_bool_iff in Hle. congruence.
  - destruct (Qle_bool y x) eqn:E; trivial.
    apply Qle_bool_iff in E. apply Qle_not_lt in E. contradiction.
Qed.

Lemma Qltb_ge (x y : Q) : Qltb x y = false <-> y <= x.
Proof.
  unfold Qltb. rewrite negb_false_iff. apply Qle_bool_iff.
Qed.

Lemma Qltb_cases (x y : Q) :
  (Qltb x y = true /\ x < y) \/ (Qltb x y = false /\ y <= x).
Proof.
  destruct (Qltb x y) eqn:E.
  - left. split; trivial. now apply Qltb_lt.
  - right. split; trivial. now apply Qltb_ge.
Qed.

Lemma py_div_ok (x y : Q) : ~ y == 0 -> py_div x y = Ok (x / y).
Proof.
  intro H. unfold py_div.
  destruct (Qeq_bool y 0) eqn:E; trivial.
  apply Qeq_bool_iff in E. contradiction.
Qed.

Lemma py_mod_ok (x y : Q) :
  ~ y == 0 -> py_mod x y = Ok (x - y * inject_Z (Qfloor (x / y))).
Proof.
  intro H. unfold py_mod.
  destruct (Qeq_bool y 0) eqn:E; trivial.
  apply Qeq_bool_iff in E. contradiction.
Qed.

(** The remainder of a positive modulus lies in [[0, m)]. *)
Lemma floor_rem_range (x m : Q) :
  0 < m ->
  0 <= x - m * inject_Z (Qfloor (x / m)) /\
  x - m * inject_Z (Qfloor (x / m)) < m.
Proof.
  intro Hm.
  assert (Hne : ~ m == 0) by lra.
  pose proof (Qfloor_le (x / m)) as Hlo.
  pose proof (Qlt_floor (x / m)) as Hhi.
  rewrite inject_Z_plus in Hhi.
  set (f := inject_Z (Qfloor (x / m))) in *.
  assert (Hx : x == m * (x / m)) by (field; exact Hne).
  change (inject_Z 1) with 1 in Hhi.
  split.
  - assert (m * f <= m * (x / m)) by (apply Qmult_le_l; assumption).
    lra.
  - assert (m * (x / m) < m * (f + 1)) by (apply Qmult_lt_l; assumption).
    lra.
Qed.

(** A number already in [[0, m)] is its own remainder. *)
Lemma floor_rem_id (x m : Q) :
  0 < m -> 0 <= x -> x < m ->
  x - m * inject_Z (Qfloor (x / m)) == x.
Proof.
  intros Hm H0 H1.
  assert (Hne : ~ m == 0) by lra.
  assert (Hf : Qfloor (x / m) = 0%Z).
  { assert (Hq0 : 0 <= x / m).
    { apply Qle_shift_div_l; lra. }
    assert (Hq1 : x / m < 1).
    { apply Qlt_shift_div_r; lra. }
    pose proof (Qfloor_le (x / m)) as Hlo.
    pose proof (Qlt_floor (x / m)) as Hhi.
    assert (A : inject_Z (Qfloor (x / m)) < inject_Z 1).
    { change (inject_Z 1) with 1. lra. }
    assert (B : inject_Z (-1) < inject_Z (Qfloor (x / m))).
    { rewrite inject_Z_plus in Hhi. change (inject_Z 1) with 1 in Hhi.
      change (inject_Z (-1)) with (-1). lra. }
    rewrite <- Zlt_Qlt in A, B. lia. }
  rewrite Hf. change (inject_Z 0) with 0. ring.
Qed.

(** ** np.clip *)

Lemma np_clip_bounds (x lo hi : Q) :
  lo <= hi -> lo <= np_clip x lo hi /\ np_clip x lo hi <= hi.
Proof.
  intro H. unfold np_clip. split.
  - apply Q.min_glb; trivial. apply Q.le_max_r.
  - apply Q.le_min_r.
Qed.

Lemma np_clip_inside (x lo hi : Q) :
  lo <= x -> x <= hi -> np_clip x lo hi == x.
Proof.
  intros H1 H2. unfold np_clip.
  rewrite (Q.max_l x lo H1). now apply Q.min_l.
Qed.

Lemma np_clip_abs (x b : Q) : 0 <= b -> Qabs (np_clip x (- b) b) <= b.
Proof.
  intro Hb. apply Qabs_Qle_condition. apply np_clip_bounds. lra.
Qed.

(** ** Python lists *)

Lemma py_getitem_nth {A : Type} (l : list A) (i : nat) (d : A) :
  (i < length l)%nat -> py_getitem l (Z.of_nat i) = Ok (nth i l d).
Proof.
  intro H. unfold py_getitem.
  replace (Z.of_nat i <? 0)%Z with false by (symmetry; apply Z.ltb_ge; lia).
  replace (0 <=? Z.of_nat i)%Z with true by (symmetry; apply Z.leb_le; lia).
  replace (Z.of_nat i <? Z.of_nat (length l))%Z with true
    by (symmetry; apply Z.ltb_lt; lia).
  cbn [andb]. rewrite Nat2Z.id.
  destruct (nth_error l i) eqn:E.
  - now rewrite (nth_error_nth l i d E).
  - apply nth_error_None in E. lia.
Qed.

Lemma py_getitem_pred {A : Type} (l : list A) (i : nat) (d : A) :
  (1 <= i)%nat -> (i <= length l)%nat ->
  py_getitem l (Z.of_nat i - 1) = Ok (nth (i - 1) l d).
Proof.
  intros H1 H2.
  replace (Z.of_nat i - 1)%Z with (Z.of_nat (i - 1)) by lia.
  apply py_getitem_nth. lia.
Qed.

Lemma py_getitem_succ {A : Type} (l : list A) (i : nat) (d : A) :
  (S i < length l)%nat ->
  py_getitem l (Z.of_nat i + 1) = Ok (nth (S i) l d).
Proof.
  intro H.
  replace (Z.of_nat i + 1)%Z with (Z.of_nat (S i)) by lia.
  now apply py_getitem_nth.
Qed.

(** [l[-1]] is the last element. *)
Lemma py_getitem_minus_one {A : Type} (l : list A) (d : A) :
  (1 <= length l)%nat ->
  py_getitem l (Z.of_nat 0 - 1) = Ok (nth (length l - 1) l d).
Proof.
  intro H. unfold py_getitem. change (Z.of_nat 0 - 1)%Z with (-1)%Z.
  cbv beta zeta. change (-1 <? 0)%Z with true. cbv iota.
  replace (-1 + Z.of_nat (length l))%Z with (Z.of_nat (length l - 1)) by lia.
  replace (0 <=? Z.of_nat (length l - 1))%Z with true
    by (symmetry; apply Z.leb_le; lia).
  replace (Z.of_nat (length l - 1) <? Z.of_nat (length l))%Z with true
    by (symmetry; apply Z.ltb_lt; lia).
  cbn [andb]. rewrite Nat2Z.id.
  destruct (nth_error l (length l - 1)) eqn:E.
  - now rewrite (nth_error_nth l _ d E).
  - apply nth_error_None in E. lia.
Qed.

(** ** np.argmin returns the first index of the minimum *)

Lemma first_min_snoc_new (pre : list Q) (k : nat) (x : Q) :
  first_min pre k -> x < nth k pre 0 ->
  first_min (pre ++ [x]) (length pre).
Proof.
  intros (Hk & Hle & Hlt) Hx.
  assert (Hn : nth (length pre) (pre ++ [x]) 0 = x).
  { rewrite app_nth2 by lia. now rewrite Nat.sub_diag. }
  unfold first_min. rewrite Hn, length_app. cbn [length].
  split; [lia|]. split.
  - intros j Hj. destruct (Nat.eq_dec j (length pre)) as [->|Hne].
    + rewrite Hn. apply Qle_refl.
    + rewrite app_nth1 by lia. apply Qlt_le_weak.
      apply Qlt_le_trans with (nth k pre 0); trivial. apply Hle. lia.
  - intros j Hj. rewrite app_nth1 by lia.
    apply Qlt_le_trans with (nth k pre 0); trivial. now apply Hle.
Qed.

Lemma first_min_snoc_keep (pre : list Q) (k : nat) (x : Q) :
  first_min pre k -> nth k pre 0 <= x ->
  first_min (pre ++ [x]) k.
Proof.
  intros (Hk & Hle & Hlt) Hx.
  unfold first_min. rewrite length_app. cbn [length].
  rewrite (app_nth1 pre [x] 0 Hk).
  split; [lia|]. split.
  - intros j Hj. destruct (Nat.eq_dec j (length pre)) as [->|Hne].
    + rewrite app_nth2 by lia. now rewrite Nat.sub_diag.
    + rewrite app_nth1 by lia. apply Hle. lia.
  - intros j Hj. rewrite app_nth1 by lia. now apply Hlt.
Qed.

Lemma argmin_from_first_min (l pre : list Q) (k : nat) :
  first_min pre k ->
  first_min (pre ++ l) (argmin_from (nth k pre 0) k (length pre) l).
Proof.
  revert pre k. induction l as [|x l IH]; intros pre k Hpre.
  - cbn. now rewrite app_nil_r.
  - cbn [argmin_from].
    replace (pre ++ x :: l) with ((pre ++ [x]) ++ l)
      by (rewrite <- app_assoc; reflexivity).
    replace (S (length pre)) with (length (pre ++ [x]))
      by (rewrite length_app; cbn; lia).
    destruct (Qltb_cases x (nth k pre 0)) as [[-> Hx]|[-> Hx]].
    + pose proof (first_min_snoc_new pre k x Hpre Hx) as Hnew.
      specialize (IH (pre ++ [x]) (length pre) Hnew).
      rewrite app_nth2, Nat.sub_diag in IH by lia. exact IH.
    + pose proof (first_min_snoc_keep pre k x Hpre Hx) as Hkeep.
      specialize (IH (pre ++ [x]) k Hkeep).
      rewrite (app_nth1 pre [x] 0) in IH by apply Hpre. exact IH.
Qed.

Lemma np_argmin_first_min (l : list Q) :
  l <> [] -> exists k, np_argmin l = Ok k /\ first_min l k.
Proof.
  destruct l as [|x l]; [congruence|]. intros _.
  exists (argmin_from x 0%nat 1%nat l). split; [reflexivity|].
  apply (argmin_from_first_min l [x] 0%nat).
  unfold first_min. cbn [length]. split; [lia|]. split.
  - intros j Hj. replace j with 0%nat by lia. apply Qle_refl.
  - intros j Hj. lia.
Qed.

Lemma first_min_unique (l : list Q) (k k' : nat) :
  first_min l k -> first_min l k' -> k = k'.
Proof.
  intros (Hk & Hle & Hlt) (Hk' & Hle' & Hlt').
  destruct (Nat.lt_trichotomy k k') as [H|[H|H]]; trivial.
  - specialize (Hlt' k H). specialize (Hle k' Hk'). lra.
  - specialize (Hlt k' H). specialize (Hle' k Hk). lra.
Qed.

Lemma first_min_np_argmin (l : list Q) (k : nat) :
  first_min l k -> np_argmin l = Ok k.
Proof.
  intro H.
  assert (Hne : l <> []).
  { destruct H as (Hk & _). destruct l; cbn in Hk; [lia|congruence]. }
  destruct (np_argmin_first_min l Hne) as (k' & E & H').
  now rewrite (first_min_unique l k k' H H').
Qed.

(** ** numpy arrays *)

Lemma vdiv3_ok (u : vec3) (s : Q) : ~ s == 0 -> vdiv3 u s = Ok (vquot3 u s).
Proof.
  intro H. unfold vdiv3. now rewrite !py_div_ok by exact H.
Qed.

(** ** The three branches of trajectory_control *)

Lemma nth_time_distances (T : list Q) (now : Q) (k : nat) :
  (k < length T)%nat ->
  nth k (time_distances T now) 0 = Qabs (nth k T 0 - now).
Proof.
  intro H. unfold time_distances.
  rewrite (nth_indep _ 0 (Qabs (0 - now))) by (now rewrite length_map).
  apply (map_nth (fun t => Qabs (t - now))).
Qed.

Lemma nearest_lt_length (T : list Q) (now : Q) (i : nat) :
  nearest T now i -> (i < length T)%nat.
Proof.
  intros (H & _). unfold time_distances in H. now rewrite length_map in H.
Qed.

Lemma nearest_intro (T : list Q) (now : Q) (i : nat) :
  (i < length T)%nat ->
  (forall j, (j < length T)%nat ->
     Qabs (nth i T 0 - now) <= Qabs (nth j T 0 - now)) ->
  (forall j, (j < i)%nat ->
     Qabs (nth i T 0 - now) < Qabs (nth j T 0 - now)) ->
  nearest T now i.
Proof.
  intros Hi Hle Hlt. unfold nearest, first_min.
  unfold time_distances at 1 2. rewrite length_map.
  split; [exact Hi|]. split.
  - intros j Hj. rewrite !nth_time_distances by assumption. now apply Hle.
  - intros j Hj. rewrite !nth_time_distances by lia. now apply Hlt.
Qed.

Lemma nearest_exists (T : list Q) (now : Q) :
  T <> [] -> exists i, nearest T now i.
Proof.
  intro H.
  destruct (np_argmin_first_min (time_distances T now)) as (k & _ & Hk).
  - unfold time_distances. destruct T; cbn; congruence.
  - now exists k.
Qed.

Lemma trajectory_control_backward (P : list vec3) (Y T : list Q) (now : Q)
    (i : nat) (p0 : vec3) (t0 y0 : Q) :
  nearest T now i ->
  length P = length T ->
  now < nth i T 0 ->
  py_getitem P (Z.of_nat i - 1) = Ok p0 ->
  py_getitem T (Z.of_nat i - 1) = Ok t0 ->
  py_getitem Y (Z.of_nat i - 1) = Ok y0 ->
  ~ nth i T 0 - t0 == 0 ->
  trajectory_control P Y T now =
    Ok (fst (interpolation p0 (nth i P zero3) t0 (nth i T 0) now),
        snd (interpolation p0 (nth i P zero3) t0 (nth i T 0) now), y0).
Proof.
  intros Hn HP Hlt E0 Et Ey Hd.
  pose proof (nearest_lt_length T now i Hn) as Hi.
  unfold trajectory_control.
  fold (time_distances T now). rewrite (first_min_np_argmin _ _ Hn).
  cbn [bind]. rewrite (py_getitem_nth T i 0 Hi). cbn [bind].
  apply Qltb_lt in Hlt. rewrite Hlt.
  rewrite E0. cbn [bind]. rewrite (py_getitem_nth P i zero3) by lia.
  cbn [bind]. rewrite Et. cbn [bind]. rewrite Ey. cbn [bind].
  rewrite !vdiv3_ok by exact Hd. reflexivity.
Qed.

Lemma trajectory_control_forward (P : list vec3) (Y T : list Q) (now : Q)
    (i : nat) :
  nearest T now i ->
  length P = length T -> length Y = length T ->
  (S i < length T)%nat ->
  nth i T 0 <= now ->
  ~ nth (S i) T 0 - nth i T 0 == 0 ->
  trajectory_control P Y T now =
    Ok (fst (interpolation (nth i P zero3) (nth (S i) P zero3)
                           (nth i T 0) (nth (S i) T 0) now),
        snd (interpolation (nth i P zero3) (nth (S i) P zero3)
                           (nth i T 0) (nth (S i) T 0) now),
        nth i Y 0).
Proof.
  intros Hn HP HY Hi Hle Hd.
  unfold trajectory_control.
  fold (time_distances T now). rewrite (first_min_np_argmin _ _ Hn).
  cbn [bind]. rewrite (py_getitem_nth T i 0) by lia. cbn [bind].
  apply Qltb_ge in Hle. rewrite Hle.
  rewrite (py_getitem_nth Y i 0) by lia. cbn [bind].
  replace (Z.of_nat (length P) - 1 <=? Z.of_nat i)%Z with false
    by (symmetry; apply Z.leb_gt; lia).
  rewrite (py_getitem_nth P i zero3) by lia. cbn [bind].
  rewrite (py_getitem_succ P i zero3) by lia. cbn [bind].
  rewrite (py_getitem_succ T i 0) by lia. cbn [bind].
  rewrite !vdiv3_ok by exact Hd. reflexivity.
Qed.

Lemma trajectory_control_hold (P : list vec3) (Y T : list Q) (now : Q)
    (i : nat) :
  nearest T now i ->
  length P = length T -> length Y = length T ->
  S i = length T ->
  nth i T 0 <= now ->
  trajectory_control P Y T now =
    Ok (fst (interpolation (nth i P zero3) (nth i P zero3) 0 1 now),
        snd (interpolation (nth i P zero3) (nth i P zero3) 0 1 now),
        nth i Y 0).
Proof.
  intros Hn HP HY Hi Hle.
  unfold trajectory_control.
  fold (time_distances T now). rewrite (first_min_np_argmin _ _ Hn).
  cbn [bind]. rewrite (py_getitem_nth T i 0) by lia. cbn [bind].
  apply Qltb_ge in Hle. rewrite Hle.
  rewrite (py_getitem_nth Y i 0) by lia. cbn [bind].
  replace (Z.of_nat (length P) - 1 <=? Z.of_nat i)%Z with true
    by (symmetry; apply Z.leb_le; lia).
  rewrite (py_getitem_nth P i zero3) by lia. cbn [bind].
  assert (Hd : ~ 1 - 0 == 0) by lra.
  rewrite !vdiv3_ok by exact Hd. reflexivity.
Qed.

(** ** Trajectories with increasing timestamps *)

Lemma strictly_increasing_step (l : list Q) (i : nat) :
  strictly_increasing l = true -> (S i < length l)%nat ->
  nth i l 0 < nth (S i) l 0.
Proof.
  revert i. induction l as [|a l IH]; intros i H Hi.
  - cbn in Hi. lia.
  - destruct l as [|b l].
    + cbn in Hi. lia.
    + cbn [strictly_increasing] in H. apply andb_true_iff in H.
      destruct H as [Hab Hl]. destruct i as [|i].
      * cbn. now apply Qltb_lt.
      * change (nth i (b :: l) 0 < nth (S i) (b :: l) 0).
        apply IH; trivial. cbn in Hi |- *. lia.
Qed.

Lemma strictly_increasing_nth (l : list Q) (i j : nat) :
  strictly_increasing l = true -> (i < j)%nat -> (j < length l)%nat ->
  nth i l 0 < nth j l 0.
Proof.
  intros H Hij. induction Hij as [|j Hij IH]; intro Hj.
  - now apply strictly_increasing_step.
  - apply Qlt_trans with (nth j l 0).
    + apply IH. lia.
    + now apply strictly_increasing_step.
Qed.

Lemma Qabs_diff_past (t now : Q) : t <= now -> Qabs (t - now) == now - t.
Proof.
  intro H. rewrite Qabs_neg by lra. ring.
Qed.

Lemma Qabs_diff_zero (t : Q) : Qabs (t - t) == 0.
Proof.
  rewrite Qabs_pos by lra. ring.
Qed.

Lemma Qabs_diff_pos (s t : Q) : ~ s == t -> 0 < Qabs (s - t).
Proof.
  intro H. apply Qabs_case; intro; lra.
Qed.

(** At the timestamp of a sample, that sample is the nearest one. *)
Lemma nearest_at_sample (T : list Q) (i : nat) :
  strictly_increasing T = true -> (i < length T)%nat ->
  nearest T (nth i T 0) i.
Proof.
  intros Hinc Hi. apply nearest_intro; trivial.
  - intros j Hj. rewrite Qabs_diff_zero. apply Qabs_nonneg.
  - intros j Hj. rewrite Qabs_diff_zero. apply Qabs_diff_pos.
    pose proof (strictly_increasing_nth T j i Hinc Hj Hi). lra.
Qed.

(** From the last timestamp on, the last sample is the nearest one,
    provided it is strictly later than the samples before it. *)
Lemma nearest_past_end (T : list Q) (now : Q) (n : nat) :
  length T = S n ->
  (forall j, (j < n)%nat -> nth j T 0 < nth n T 0) ->
  nth n T 0 <= now ->
  nearest T now n.
Proof.
  intros Hlen Hlast Hnow. apply nearest_intro; [lia| |].
  - intros j Hj. destruct (Nat.eq_dec j n) as [->|Hne]; [apply Qle_refl|].
    assert (Hjn : nth j T 0 < nth n T 0) by (apply Hlast; lia).
    rewrite !Qabs_diff_past by lra. lra.
  - intros j Hj. specialize (Hlast j Hj).
    rewrite !Qabs_diff_past by lra. lra.
Qed.

(** Before the first timestamp, the first sample is the nearest one. *)
Lemma nearest_before_start (T : list Q) (now : Q) :
  strictly_increasing T = true -> (1 <= length T)%nat ->
  now < nth 0 T 0 ->
  nearest T now 0.
Proof.
  intros Hinc Hlen Hnow. apply nearest_intro; [lia| |].
  - intros j Hj. destruct j as [|j]; [apply Qle_refl|].
    assert (H0j : nth 0 T 0 < nth (S j) T 0)
      by (apply strictly_increasing_nth; trivial; lia).
    rewrite !Qabs_pos by lra. lra.
  - intros j Hj. lia.
Qed.

Lemma np_argmin_nearest (T : list Q) (now : Q) (i : nat) :
  np_argmin (time_distances T now) = Ok i <-> nearest T now i.
Proof.
  split.
  - intro E. destruct (np_argmin_first_min (time_distances T now))
      as (k & Ek & Hk).
    + intro H. rewrite H in E. discriminate.
    + rewrite E in Ek. injection Ek as ->. exact Hk.
  - apply first_min_np_argmin.
Qed.

(** ** The trajectory sampler *)

(** C8.  With strictly increasing timestamps, sampling exactly at the
    timestamp of a waypoint that is not the last one returns that
    waypoint's position and, as velocity, the slope towards the next
    waypoint, (pos[i+1] - pos[i]) / (times[i+1] - times[i]).  For the
    waypoints (t=0, (0,0,0)) and (t=2, (2,0,0)), sampling at t=0 returns
    position (0,0,0) and velocity (1,0,0). *)
Theorem trajectory_control_at_waypoint :
  (forall (P : list vec3) (Y T : list Q) (i : nat),
     length P = length T -> length Y = length T ->
     strictly_increasing T = true ->
     (S i < length T)%nat ->
     exists p v y,
       trajectory_control P Y T (nth i T 0) = Ok (p, v, y) /\
       veq3 p (nth i P zero3) /\
       veq3 v (vquot3 (vsub3 (nth (S i) P zero3) (nth i P zero3))
                      (nth (S i) T 0 - nth i T 0))) /\
  (forall y0 y1 : Q,
     exists p v y,
       trajectory_control [mk3 0 0 0; mk3 2 0 0] [y0; y1] [0; 2] 0
         = Ok (p, v, y) /\
       veq3 p (mk3 0 0 0) /\ veq3 v (mk3 1 0 0)).
Proof.
  split.
  - intros P Y T i HP HY Hinc Hi.
    assert (Hstep : nth i T 0 < nth (S i) T 0)
      by (now apply strictly_increasing_step).
    assert (Hd : ~ nth (S i) T 0 - nth i T 0 == 0) by lra.
    pose proof (nearest_at_sample T i Hinc ltac:(lia)) as Hn.
    rewrite (trajectory_control_forward P Y T _ i Hn HP HY Hi
               (Qle_refl _) Hd).
    eexists _, _, _. split; [reflexivity|]. split.
    + unfold interpolation, veq3; cbn; repeat split; field; exact Hd.
    + unfold interpolation, veq3; cbn; repeat split; reflexivity.
  - intros y0 y1. eexists _, _, _. split; [reflexivity|].
    split; unfold veq3; cbn; repeat split; reflexivity.
Qed.

Lemma trajectory_control_at_waypoint_witness :
  exists p v y,
    trajectory_control [mk3 1 2 3; mk3 4 6 3; mk3 4 8 0] [0; 1; 2]
      [0; 2; 5] (nth 1%nat [0; 2; 5] 0) = Ok (p, v, y) /\
    veq3 p (nth 1%nat [mk3 1 2 3; mk3 4 6 3; mk3 4 8 0] zero3) /\
    veq3 v (vquot3 (vsub3 (nth 2%nat [mk3 1 2 3; mk3 4 6 3; mk3 4 8 0] zero3)
                          (nth 1%nat [mk3 1 2 3; mk3 4 6 3; mk3 4 8 0] zero3))
                   (nth 2%nat [0; 2; 5] 0 - nth 1%nat [0; 2; 5] 0)).
Proof.
  apply (proj1 trajectory_control_at_waypoint
           [mk3 1 2 3; mk3 4 6 3; mk3 4 8 0] [0; 1; 2] [0; 2; 5] 1%nat);
    try reflexivity.
  simpl. lia.
Defined.

(** In exact arithmetic: for every trajectory and every current_time at
    or past the final timestamp for which np.argmin selects the final
    sample, trajectory_control returns the final waypoint's position,
    zero velocity and the final yaw; the denominator it divides by is
    1.0 - 0.0, never zero. *)
Lemma trajectory_control_past_end
    (P : list vec3) (Y T : list Q) (now : Q) (n : nat) :
  length P = length T -> length Y = length T ->
  length T = S n ->
  np_argmin (map (fun t => Qabs (t - now)) T) = Ok n ->
  nth n T 0 <= now ->
  exists p v,
    trajectory_control P Y T now = Ok (p, v, nth n Y 0) /\
    veq3 p (nth n P zero3) /\ veq3 v zero3.
Proof.
  intros HP HY Hlen Hsel Hnow.
  pose proof (proj1 (np_argmin_nearest T now n) Hsel) as Hn.
  rewrite (trajectory_control_hold P Y T now n Hn HP HY
             (eq_sym Hlen) Hnow).
  eexists _, _. split; [reflexivity|].
  unfold interpolation, veq3; cbn; repeat split; field.
Qed.

Lemma trajectory_control_past_end_witness :
  exists p v,
    trajectory_control [mk3 0 0 0; mk3 2 0 0; mk3 5 1 (-3)] [0; 1; 2]
      [0; 2; 3] 7 = Ok (p, v, nth 2%nat [0; 1; 2] 0) /\
    veq3 p (nth 2%nat [mk3 0 0 0; mk3 2 0 0; mk3 5 1 (-3)] zero3) /\
    veq3 v zero3.
Proof.
  apply (trajectory_control_past_end
           [mk3 0 0 0; mk3 2 0 0; mk3 5 1 (-3)] [0; 1; 2] [0; 2; 3] 7 2%nat);
    try reflexivity.
  discriminate.
Defined.

(** With timestamps that are only non-decreasing the last sample need
    not be the one chosen: for the times 0, 2, 2 and current_time 3 the
    first of the two samples at t=2 is the nearest, the forward branch
    divides by 2 - 2 and no position is produced. *)
Lemma trajectory_control_past_end_repeated_time :
  nth 2%nat [0; 2; 2] 0 <= 3 /\
  trajectory_control [mk3 0 0 0; mk3 2 0 0; mk3 5 0 0] [0; 1; 2]
    [0; 2; 2] 3 = Err DivisionByZero /\
  ~ (exists p v y,
       trajectory_control [mk3 0 0 0; mk3 2 0 0; mk3 5 0 0] [0; 1; 2]
         [0; 2; 2] 3 = Ok (p, v, y) /\
       veq3 p (mk3 5 0 0) /\ veq3 v zero3).
Proof.
  split; [discriminate|]. split; [reflexivity|].
  intros (p & v & y & E & _). discriminate E.
Qed.

(** C2.  Before the first timestamp the branch taken reads the samples
    at index [ind_min - 1 = -1], that is the last ones: with the
    waypoints (t=0, (0,0,0)) and (t=2, (2,0,0)) and current_time -1 the
    position command is (-1,0,0), on the line through the last and the
    first waypoint, not the first waypoint's position (0,0,0); the yaw
    command is the last sample's. *)
Theorem trajectory_control_before_start_wraps :
  exists p v y,
    trajectory_control [mk3 0 0 0; mk3 2 0 0] [0; 1] [0; 2] (-1)
      = Ok (p, v, y) /\
    veq3 p (mk3 (-1) 0 0) /\ veq3 v (mk3 1 0 0) /\ y = 1 /\
    ~ veq3 p (mk3 0 0 0).
Proof.
  eexists _, _, _. split; [reflexivity|].
  unfold veq3; cbn. repeat split; try reflexivity.
  intros (H & _). discriminate H.
Qed.

(** With a single waypoint the two samples read before the start are
    the same one, and the division is by zero. *)
Lemma trajectory_control_before_start_single :
  trajectory_control [mk3 7 0 0] [0] [0] (-1) = Err DivisionByZero.
Proof. reflexivity. Qed.

(** In general, before the first timestamp of a trajectory of at least
    two samples the commands are those of the line through the last and
    the first sample. *)
Lemma trajectory_control_before_start
    (P : list vec3) (Y T : list Q) (now : Q) (n : nat) :
  length P = length T -> length Y = length T ->
  length T = S (S n) ->
  strictly_increasing T = true ->
  now < nth 0 T 0 ->
  trajectory_control P Y T now =
    Ok (fst (interpolation (nth (S n) P zero3) (nth 0 P zero3)
                           (nth (S n) T 0) (nth 0 T 0) now),
        snd (interpolation (nth (S n) P zero3) (nth 0 P zero3)
                           (nth (S n) T 0) (nth 0 T 0) now),
        nth (S n) Y 0).
Proof.
  intros HP HY Hlen Hinc Hnow.
  pose proof (nearest_before_start T now Hinc ltac:(lia) Hnow) as Hn.
  assert (H0n : nth 0 T 0 < nth (S n) T 0)
    by (apply strictly_increasing_nth; trivial; lia).
  apply trajectory_control_backward; trivial.
  - rewrite (py_getitem_minus_one P zero3) by lia.
    do 3 f_equal. lia.
  - rewrite (py_getitem_minus_one T 0) by lia. do 3 f_equal. lia.
  - rewrite (py_getitem_minus_one Y 0) by lia. do 3 f_equal. lia.
  - lra.
Qed.

Lemma py_getitem_nat_inv {A : Type} (l : list A) (i : nat) (a d : A) :
  py_getitem l (Z.of_nat i) = Ok a -> (i < length l)%nat /\ a = nth i l d.
Proof.
  intro E. destruct (Nat.lt_ge_cases i (length l)) as [H|H].
  - split; trivial. rewrite (py_getitem_nth l i d H) in E. congruence.
  - exfalso. unfold py_getitem in E.
    replace (Z.of_nat i <? 0)%Z with false in E
      by (symmetry; apply Z.ltb_ge; lia).
    replace (Z.of_nat i <? Z.of_nat (length l))%Z with false in E
      by (symmetry; apply Z.ltb_ge; lia).
    rewrite andb_false_r in E. discriminate E.
Qed.

(** With increasing timestamps and at least two samples the sampler
    returns commands at every time. *)
Lemma trajectory_control_returns (P : list vec3) (Y T : list Q) (now : Q) :
  length P = length T -> length Y = length T ->
  strictly_increasing T = true -> (2 <= length T)%nat ->
  exists p v y, trajectory_control P Y T now = Ok (p, v, y).
Proof.
  intros HP HY Hinc Hlen.
  destruct (nearest_exists T now) as (i & Hn).
  { destruct T; cbn in Hlen; [lia|congruence]. }
  pose proof (nearest_lt_length T now i Hn) as Hi.
  destruct (Qlt_le_dec now (nth i T 0)) as [Hlt|Hle].
  - destruct i as [|i].
    + assert (El : length T = S (S (length T - 2))) by lia.
      rewrite (trajectory_control_before_start P Y T now _ HP HY El Hinc Hlt).
      eauto.
    + assert (Hs : nth i T 0 < nth (S i) T 0)
        by (now apply strictly_increasing_step).
      assert (Ep : py_getitem P (Z.of_nat (S i) - 1) = Ok (nth i P zero3)).
      { rewrite (py_getitem_pred P (S i) zero3) by lia.
        now rewrite Nat.sub_succ, Nat.sub_0_r. }
      assert (Et : py_getitem T (Z.of_nat (S i) - 1) = Ok (nth i T 0)).
      { rewrite (py_getitem_pred T (S i) 0) by lia.
        now rewrite Nat.sub_succ, Nat.sub_0_r. }
      assert (Ey : py_getitem Y (Z.of_nat (S i) - 1) = Ok (nth i Y 0)).
      { rewrite (py_getitem_pred Y (S i) 0) by lia.
        now rewrite Nat.sub_succ, Nat.sub_0_r. }
      assert (Hd : ~ nth (S i) T 0 - nth i T 0 == 0) by lra.
      rewrite (trajectory_control_backward P Y T now (S i) _ _ _
                 Hn HP Hlt Ep Et Ey Hd).
      eauto.
  - destruct (Nat.eq_dec (S i) (length T)) as [He|Hne].
    + rewrite (trajectory_control_hold P Y T now i Hn HP HY He Hle). eauto.
    + assert (Hsi : (S i < length T)%nat) by lia.
      assert (Hs : nth i T 0 < nth (S i) T 0)
        by (now apply strictly_increasing_step).
      assert (Hd : ~ nth (S i) T 0 - nth i T 0 == 0) by lra.
      rewrite (trajectory_control_forward P Y T now i Hn HP HY Hsi Hle Hd).
      eauto.
Qed.

(** C7.  Let i be the index of the sample nearest to current_time.
    Whenever the sampler returns, the yaw command is yaw_trajectory[i-1]
    (the earlier sample's yaw when i >= 1) if current_time precedes
    times[i], and yaw_trajectory[i] otherwise, whether sample i is the
    last one or not; with increasing timestamps and at least two samples
    it does return. *)
Theorem trajectory_control_yaw
    (P : list vec3) (Y T : list Q) (now : Q) (i : nat) :
  np_argmin (map (fun t => Qabs (t - now)) T) = Ok i ->
  (forall p v y,
     trajectory_control P Y T now = Ok (p, v, y) ->
     (now < nth i T 0 ->
        py_getitem Y (Z.of_nat i - 1) = Ok y /\
        ((1 <= i)%nat -> y = nth (i - 1) Y 0)) /\
     (nth i T 0 <= now ->
        py_getitem Y (Z.of_nat i) = Ok y /\ y = nth i Y 0)) /\
  (length P = length T -> length Y = length T ->
   strictly_increasing T = true -> (2 <= length T)%nat ->
   exists p v y, trajectory_control P Y T now = Ok (p, v, y)).
Proof.
  intro Ei. split; [|apply trajectory_control_returns].
  intros p v y E.
  pose proof (proj1 (np_argmin_nearest T now i) Ei) as Hn.
  pose proof (nearest_lt_length T now i Hn) as Hi.
  unfold trajectory_control in E. rewrite Ei in E. cbn [bind] in E.
  rewrite (py_getitem_nth T i 0 Hi) in E. cbn [bind] in E.
  destruct (Qltb_cases now (nth i T 0)) as [[Eb Hb]|[Eb Hb]];
    rewrite Eb in E.
  - repeat step_bind E. injection E as _ _ <-.
    split; [intros _|intro; lra]. split; [reflexivity|].
    intro H1.
    replace (Z.of_nat i - 1)%Z with (Z.of_nat (i - 1)) in * by lia.
    match goal with
    | H : py_getitem Y _ = Ok _ |- _ =>
        now apply (py_getitem_nat_inv Y (i - 1) _ 0) in H
    end.
  - step_bind E.
    assert (Hy : a = y).
    { destruct (Z.of_nat (length P) - 1 <=? Z.of_nat i)%Z;
        repeat step_bind E; now injection E. }
    subst a.
    split; [intro; lra|intros _]. split; [reflexivity|].
    match goal with
    | H : py_getitem Y _ = Ok _ |- _ =>
        now apply (py_getitem_nat_inv Y i _ 0) in H
    end.
Qed.

Lemma trajectory_control_yaw_witness :
  exists p v y,
    trajectory_control [mk3 0 0 0; mk3 2 0 0; mk3 5 1 0] [10; 20; 30]
      [0; 2; 3] (3 # 2) = Ok (p, v, y) /\
    y = nth (1 - 1) [10; 20; 30] 0.
Proof.
  destruct (trajectory_control_yaw [mk3 0 0 0; mk3 2 0 0; mk3 5 1 0]
              [10; 20; 30] [0; 2; 3] (3 # 2) 1%nat eq_refl) as [Hyaw Hret].
  destruct (Hret eq_refl eq_refl eq_refl (le_S 2 2 (le_n 2)))
    as (p & v & y & E).
  exists p, v, y. split; [exact E|].
  destruct (Hyaw p v y E) as [Hbefore _].
  destruct (Hbefore eq_refl) as [_ Hearlier].
  exact (Hearlier (le_n 1)).
Defined.

(** ** normalize_angle and the yaw stage *)

Lemma np_pi_pos : 0 < np_pi.
Proof. reflexivity. Qed.

Lemma two_pi_pos : 0 < 2 * np_pi.
Proof. reflexivity. Qed.

(** The modulo never fails and its result is never negative, so the
    branch [if x < 0] is not taken. *)
Lemma normalize_angle_wrap (x : Q) : normalize_angle x = Ok (wrap_angle x).
Proof.
  unfold normalize_angle.
  rewrite py_mod_ok by (pose proof two_pi_pos; lra).
  cbn [bind].
  destruct (floor_rem_range (x + np_pi) (2 * np_pi) two_pi_pos) as [H0 _].
  apply Qltb_ge in H0. rewrite H0. reflexivity.
Qed.

Lemma wrap_angle_range (x : Q) : - np_pi <= wrap_angle x /\ wrap_angle x < np_pi.
Proof.
  unfold wrap_angle.
  destruct (floor_rem_range (x + np_pi) (2 * np_pi) two_pi_pos) as [H0 H1].
  split; lra.
Qed.

Lemma wrap_angle_fixed (y : Q) :
  - np_pi <= y -> y < np_pi -> wrap_angle y == y.
Proof.
  intros H0 H1. unfold wrap_angle.
  rewrite (floor_rem_id (y + np_pi) (2 * np_pi) two_pi_pos) by lra.
  ring.
Qed.



(** ** The body-rate stage *)

(** C4.  Whatever the commanded and the measured body rates, each of
    the three moments is the clamp of its own axis' unclamped moment
    and lies in [-MAX_TORQUE, MAX_TORQUE]. *)
Theorem body_rate_control_bounded
    (self : NonlinearController) (body_rate_cmd body_rate : vec3) :
  let m := body_rate_control self body_rate_cmd body_rate in
  (- MAX_TORQUE <= x3 m /\ x3 m <= MAX_TORQUE) /\
  (- MAX_TORQUE <= y3 m /\ y3 m <= MAX_TORQUE) /\
  (- MAX_TORQUE <= z3 m /\ z3 m <= MAX_TORQUE) /\
  x3 m = np_clip (x3 MOI * PController_control (p_controller_ self)
                             (x3 body_rate_cmd - x3 body_rate))
                 (- MAX_TORQUE) MAX_TORQUE /\
  y3 m = np_clip (y3 MOI * PController_control (q_controller_ self)
                             (y3 body_rate_cmd - y3 body_rate))
                 (- MAX_TORQUE) MAX_TORQUE /\
  z3 m = np_clip (z3 MOI * PController_control (r_controller_ self)
                             (z3 body_rate_cmd - z3 body_rate))
                 (- MAX_TORQUE) MAX_TORQUE.
Proof.
  assert (Hb : - MAX_TORQUE <= MAX_TORQUE) by discriminate.
  cbn zeta. unfold body_rate_control. cbn [x3 y3 z3].
  repeat split; try apply (np_clip_bounds _ _ _ Hb).
Qed.

(** ** The altitude stage *)

Lemma Qabs_gt_nonzero (x e : Q) : 0 <= e -> e < Qabs x -> ~ x == 0.
Proof.
  intros He H Hx. rewrite Hx in H. change (Qabs 0) with 0 in H. lra.
Qed.

Lemma EPSILON_nonneg : 0 <= EPSILON.
Proof. discriminate. Qed.

(** ** The roll-pitch stage *)

Lemma tilt_target_bounded (a t : Q) : Qabs (tilt_target a t) <= MAX_TILT.
Proof.
  unfold tilt_target. apply np_clip_abs. discriminate.
Qed.

Lemma DRONE_MASS_KG_nonzero : ~ DRONE_MASS_KG == 0.
Proof. discriminate. Qed.

Lemma acc_per_thrust_nonzero (thrust_cmd : Q) :
  EPSILON < Qabs thrust_cmd -> ~ - thrust_cmd / DRONE_MASS_KG == 0.
Proof.
  intros H H0.
  pose proof (Qabs_gt_nonzero _ _ EPSILON_nonneg H) as Hne.
  apply Hne.
  assert (E : thrust_cmd == - (- thrust_cmd / DRONE_MASS_KG) * DRONE_MASS_KG)
    by (field; apply DRONE_MASS_KG_nonzero).
  rewrite E, H0. ring.
Qed.

(** The value of the stage on its non-degenerate branch. *)
Lemma roll_pitch_controller_regular
    (euler2RM : Q -> Q -> Q -> mat3) (self : NonlinearController)
    (acceleration_cmd : vec2) (attitude : vec3) (thrust_cmd : Q) :
  let R := euler2RM (x3 attitude) (y3 attitude) (z3 attitude) in
  EPSILON < Qabs thrust_cmd ->
  EPSILON < Qabs (r22 R) ->
  roll_pitch_controller euler2RM self acceleration_cmd attitude thrust_cmd =
    Ok (smul2 (1 / r22 R)
          (np_matmul
             (mk22 (r10 R) (- r00 R) (r11 R) (- r01 R))
             (mk2 (PController_control (roll_controller_ self)
                     (tilt_target (x2 acceleration_cmd) thrust_cmd - r02 R))
                  (PController_control (pitch_controller_ self)
                     (tilt_target (y2 acceleration_cmd) thrust_cmd
                      - r12 R))))).
Proof.
  cbn zeta. intros Ht Hr. unfold roll_pitch_controller.
  apply Qltb_lt in Ht, Hr. rewrite Ht, Hr.
  apply Qltb_lt in Ht, Hr.
  rewrite (py_div_ok (- thrust_cmd)) by apply DRONE_MASS_KG_nonzero.
  cbn [bind].
  rewrite !py_div_ok by
    (first [ now apply acc_per_thrust_nonzero
           | apply (Qabs_gt_nonzero _ _ EPSILON_nonneg Hr) ]).
  cbn [bind]. reflexivity.
Qed.

(** The stage never fails, and on a degenerate branch the rates are
    zero. *)
Lemma roll_pitch_controller_degenerate
    (euler2RM : Q -> Q -> Q -> mat3) (self : NonlinearController)
    (acceleration_cmd : vec2) (attitude : vec3) (thrust_cmd : Q) :
  let R := euler2RM (x3 attitude) (y3 attitude) (z3 attitude) in
  Qabs thrust_cmd <= EPSILON \/ Qabs (r22 R) <= EPSILON ->
  roll_pitch_controller euler2RM self acceleration_cmd attitude thrust_cmd =
    Ok (mk2 0 0).
Proof.
  cbn zeta. intro H. unfold roll_pitch_controller.
  destruct (Qltb_cases EPSILON (Qabs thrust_cmd)) as [[-> Ht]|[-> Ht]];
    [|reflexivity].
  destruct (Qltb_cases EPSILON
              (Qabs (r22 (euler2RM (x3 attitude) (y3 attitude)
                            (z3 attitude))))) as [[-> Hr]|[-> Hr]];
    [|reflexivity].
  destruct H; lra.
Qed.

(** C3.  When |thrust_cmd| > EPSILON and |R[2][2]| > EPSILON the stage
    returns (1/R22) * [[R10, -R00], [R11, -R01]] applied to the tilt
    rates k_p * (b_c_x - R02) and k_p * (b_c_y - R12), where b_c_x and
    b_c_y are acceleration_cmd / (-thrust_cmd / mass) clamped into
    [-MAX_TILT, MAX_TILT]; rows and columns are as written, not
    transposed. *)
Theorem roll_pitch_controller_formula
    (euler2RM : Q -> Q -> Q -> mat3) (self : NonlinearController)
    (acceleration_cmd : vec2) (attitude : vec3) (thrust_cmd : Q) :
  let R := euler2RM (x3 attitude) (y3 attitude) (z3 attitude) in
  let b_c_x := tilt_target (x2 acceleration_cmd) thrust_cmd in
  let b_c_y := tilt_target (y2 acceleration_cmd) thrust_cmd in
  EPSILON < Qabs thrust_cmd ->
  EPSILON < Qabs (r22 R) ->
  exists rates,
    roll_pitch_controller euler2RM self acceleration_cmd attitude thrust_cmd
      = Ok rates /\
    veq2 rates
      (mixed_rates R
         (k_p (super (roll_controller_ self)) * (b_c_x - r02 R))
         (k_p (super (pitch_controller_ self)) * (b_c_y - r12 R))) /\
    Qabs b_c_x <= MAX_TILT /\ Qabs b_c_y <= MAX_TILT.
Proof.
  cbn zeta. intros Ht Hr.
  rewrite (roll_pitch_controller_regular euler2RM self acceleration_cmd
             attitude thrust_cmd Ht Hr).
  eexists. split; [reflexivity|]. split.
  - unfold veq2, mixed_rates, smul2, np_matmul, PController_control,
      PDController_control.
    cbn [x2 y2 m00 m01 m10 m11]. split; ring.
  - split; apply tilt_target_bounded.
Qed.

Lemma roll_pitch_controller_formula_witness :
  exists rates,
    roll_pitch_controller (fun _ _ _ => level) NonlinearController_init
      (mk2 1 0) (mk3 0 0 0) (-2) = Ok rates /\
    veq2 rates
      (mixed_rates level
         (k_p (super (roll_controller_ NonlinearController_init))
          * (tilt_target 1 (-2) - r02 level))
         (k_p (super (pitch_controller_ NonlinearController_init))
          * (tilt_target 0 (-2) - r12 level))) /\
    Qabs (tilt_target 1 (-2)) <= MAX_TILT /\
    Qabs (tilt_target 0 (-2)) <= MAX_TILT.
Proof.
  apply (roll_pitch_controller_formula (fun _ _ _ => level)
           NonlinearController_init (mk2 1 0) (mk3 0 0 0) (-2));
    reflexivity.
Defined.

(** On the level attitude a tilt rate along x alone goes to the second
    rate with the sign of R11: the first column of M is (R10, R11).
    The transposed matrix would give (0, -2). *)
Lemma roll_pitch_controller_level_example :
  exists rates,
    roll_pitch_controller (fun _ _ _ => level) NonlinearController_init
      (mk2 1 0) (mk3 0 0 0) (-2) = Ok rates /\
    veq2 rates (mk2 0 2).
Proof.
  eexists. split; [reflexivity|]. split; reflexivity.
Qed.

(** ** Zero tracking error *)

Lemma wrap_angle_zero (x : Q) : x == 0 -> wrap_angle x == 0.
Proof.
  intro H. pose proof np_pi_pos.
  rewrite wrap_angle_fixed by lra. exact H.
Qed.

(** C9.  With every command equal to the measured quantity and no
    feed-forward, each stage returns zero: the lateral stage (0,0), the
    altitude stage thrust 0, the body-rate stage (0,0,0), the yaw stage
    0, and the roll-pitch stage (0,0) when the clamped tilt targets
    equal the current tilt components. *)
Theorem zero_error_zero_output
    (euler2RM : Q -> Q -> Q -> mat3) (self : NonlinearController) :
  (forall position velocity : vec2,
     veq2 (lateral_position_control self position velocity position velocity
             (mk2 0 0)) (mk2 0 0)) /\
  (forall (altitude vertical_velocity : Q) (attitude : vec3),
     exists thrust,
       altitude_control euler2RM self altitude vertical_velocity
         altitude vertical_velocity attitude 0 = Ok thrust /\
       thrust == 0) /\
  (forall body_rate : vec3,
     veq3 (body_rate_control self body_rate body_rate) zero3) /\
  (forall yaw : Q,
     exists yaw_rate, yaw_control self yaw yaw = Ok yaw_rate /\
                      yaw_rate == 0) /\
  (forall (acceleration_cmd : vec2) (attitude : vec3) (thrust_cmd : Q),
     let R := euler2RM (x3 attitude) (y3 attitude) (z3 attitude) in
     tilt_target (x2 acceleration_cmd) thrust_cmd == r02 R ->
     tilt_target (y2 acceleration_cmd) thrust_cmd == r12 R ->
     exists rates,
       roll_pitch_controller euler2RM self acceleration_cmd attitude
         thrust_cmd = Ok rates /\
       veq2 rates (mk2 0 0)).
Proof.
  split; [|split; [|split; [|split]]].
  - intros position velocity.
    unfold lateral_position_control, PDController_control, veq2.
    cbn [x2 y2]. split; ring.
  - intros altitude vertical_velocity attitude.
    unfold altitude_control.
    set (b_z := r22 (euler2RM (x3 attitude) (y3 attitude) (z3 attitude))).
    destruct (Qltb_cases EPSILON (Qabs b_z)) as [[-> Hb]|[-> Hb]].
    + pose proof (Qabs_gt_nonzero _ _ EPSILON_nonneg Hb) as Hne.
      rewrite py_div_ok by exact Hne. cbn [bind].
      eexists. split; [reflexivity|].
      match goal with
      | |- np_clip ?e _ _ == 0 =>
          assert (E : e == 0)
            by (unfold PDController_control; field; exact Hne);
          rewrite (np_clip_inside e) by (rewrite E; discriminate);
          exact E
      end.
    + exists 0. split; reflexivity.
  - intro body_rate.
    unfold body_rate_control, PController_control, PDController_control,
      veq3, zero3.
    cbn [x3 y3 z3].
    repeat split.
    all: match goal with
         | |- np_clip ?e _ _ == 0 =>
             assert (E : e == 0) by (unfold MOI; cbn [x3 y3 z3]; ring);
             rewrite (np_clip_inside e) by (rewrite E; discriminate);
             exact E
         end.
  - intro yaw. unfold yaw_control. rewrite normalize_angle_wrap.
    cbn [bind]. eexists. split; [reflexivity|].
    unfold PController_control, PDController_control.
    rewrite (wrap_angle_zero (yaw - yaw)) by ring. ring.
  - cbn zeta. intros acceleration_cmd attitude thrust_cmd Hx Hy.
    set (R := euler2RM (x3 attitude) (y3 attitude) (z3 attitude)) in *.
    destruct (Qlt_le_dec EPSILON (Qabs thrust_cmd)) as [Ht|Ht].
    + destruct (Qlt_le_dec EPSILON (Qabs (r22 R))) as [Hr|Hr].
      * rewrite (roll_pitch_controller_regular euler2RM self
                   acceleration_cmd attitude thrust_cmd Ht Hr).
        fold R. eexists. split; [reflexivity|].
        unfold veq2, smul2, np_matmul, PController_control,
          PDController_control.
        cbn [x2 y2 m00 m01 m10 m11]. rewrite Hx, Hy. split; ring.
      * rewrite (roll_pitch_controller_degenerate euler2RM self
                   acceleration_cmd attitude thrust_cmd)
          by (right; exact Hr).
        eexists. split; [reflexivity|]. split; reflexivity.
    + rewrite (roll_pitch_controller_degenerate euler2RM self
                 acceleration_cmd attitude thrust_cmd)
        by (left; exact Ht).
      eexists. split; [reflexivity|]. split; reflexivity.
Qed.

Lemma zero_error_zero_output_witness :
  exists rates,
    roll_pitch_controller (fun _ _ _ => pitched) NonlinearController_init
      (mk2 (- (6 # 5)) 0) (mk3 0 0 0) 1 = Ok rates /\
    veq2 rates (mk2 0 0).
Proof.
  apply (proj2 (proj2 (proj2 (proj2
           (zero_error_zero_output (fun _ _ _ => pitched)
              NonlinearController_init))))
           (mk2 (- (6 # 5)) 0) (mk3 0 0 0) 1);
    reflexivity.
Defined.

(** ** The rates of the roll-pitch stage are not clamped *)

Lemma Qabs_le_1_of_square (a s : Q) : 0 <= s -> a * a + s == 1 -> Qabs a <= 1.
Proof.
  intros Hs H. apply Qabs_Qle_condition. split; nra.
Qed.

Lemma rotation_matrix_entries (R : mat3) :
  rotation_matrix R ->
  Qabs (r00 R) <= 1 /\ Qabs (r01 R) <= 1 /\ Qabs (r02 R) <= 1 /\
  Qabs (r10 R) <= 1 /\ Qabs (r11 R) <= 1 /\ Qabs (r12 R) <= 1.
Proof.
  intros (H0 & H1 & _).
  repeat split.
  - apply (Qabs_le_1_of_square _ (r01 R * r01 R + r02 R * r02 R)); nra.
  - apply (Qabs_le_1_of_square _ (r00 R * r00 R + r02 R * r02 R)); nra.
  - apply (Qabs_le_1_of_square _ (r00 R * r00 R + r01 R * r01 R)); nra.
  - apply (Qabs_le_1_of_square _ (r11 R * r11 R + r12 R * r12 R)); nra.
  - apply (Qabs_le_1_of_square _ (r10 R * r10 R + r12 R * r12 R)); nra.
  - apply (Qabs_le_1_of_square _ (r10 R * r10 R + r11 R * r11 R)); nra.
Qed.

(** One mixed rate: a combination of two tilt rates of magnitude at
    most 16 with coefficients of magnitude at most 1, divided by a
    number of magnitude above EPSILON. *)
Lemma mixed_rate_bound (c a b u v : Q) :
  EPSILON < Qabs c ->
  Qabs a <= 1 -> Qabs b <= 1 -> Qabs u <= 16 -> Qabs v <= 16 ->
  Qabs (1 / c * (a * u + - b * v)) < 320000.
Proof.
  intros Hc Ha Hb Hu Hv.
  assert (Hne : ~ c == 0) by (apply (Qabs_gt_nonzero _ _ EPSILON_nonneg Hc)).
  set (n := a * u + - b * v).
  assert (Hn : Qabs n <= 32).
  { unfold n.
    apply Qle_trans with (Qabs (a * u) + Qabs (- b * v));
      [apply Qabs_triangle|].
    rewrite !Qabs_Qmult, Qabs_opp.
    pose proof (Qabs_nonneg a). pose proof (Qabs_nonneg b).
    pose proof (Qabs_nonneg u). pose proof (Qabs_nonneg v).
    nra. }
  rewrite Qabs_Qmult.
  assert (Hinv : Qabs (1 / c) * Qabs c == 1).
  { rewrite <- Qabs_Qmult.
    assert (E : 1 / c * c == 1) by (field; exact Hne).
    rewrite E. reflexivity. }
  pose proof (Qabs_nonneg (1 / c)). pose proof (Qabs_nonneg n).
  unfold EPSILON in Hc.
  assert (Hi : Qabs (1 / c) < 10000) by nra.
  nra.
Qed.

(** With the gains of the constructor, a tilt rate is at most
    8 * (MAX_TILT + 1) = 16 in magnitude. *)
Lemma tilt_rate_bound (a t b : Q) :
  Qabs b <= 1 ->
  Qabs (PController_control (PController_init 8) (tilt_target a t - b)) <= 16.
Proof.
  intro Hb.
  pose proof (tilt_target_bounded a t) as Hc. unfold MAX_TILT in Hc.
  apply Qabs_Qle_condition in Hb, Hc. apply Qabs_Qle_condition.
  unfold PController_control, PDController_control. cbn [PController_init
    PDController_init super k_p k_d].
  split; lra.
Qed.

(** Whatever the inputs, the rates returned for a rotation matrix stay
    below 32 / EPSILON. *)
Lemma roll_pitch_rates_below
    (euler2RM : Q -> Q -> Q -> mat3)
    (acceleration_cmd : vec2) (attitude : vec3) (thrust_cmd : Q)
    (rates : vec2) :
  rotation_matrix (euler2RM (x3 attitude) (y3 attitude) (z3 attitude)) ->
  roll_pitch_controller euler2RM NonlinearController_init acceleration_cmd
    attitude thrust_cmd = Ok rates ->
  Qabs (x2 rates) < 320000 /\ Qabs (y2 rates) < 320000.
Proof.
  intros Hrot E.
  set (R := euler2RM (x3 attitude) (y3 attitude) (z3 attitude)) in *.
  destruct (rotation_matrix_entries R Hrot)
    as (H00 & H01 & H02 & H10 & H11 & H12).
  destruct (Qlt_le_dec EPSILON (Qabs thrust_cmd)) as [Ht|Ht];
    [destruct (Qlt_le_dec EPSILON (Qabs (r22 R))) as [Hr|Hr]|].
  - rewrite (roll_pitch_controller_regular euler2RM NonlinearController_init
               acceleration_cmd attitude thrust_cmd Ht Hr) in E.
    injection E as <-. fold R.
    unfold smul2, np_matmul. cbn [x2 y2 m00 m01 m10 m11].
    cbn [NonlinearController_init roll_controller_ pitch_controller_].
    split; apply mixed_rate_bound; trivial; now apply tilt_rate_bound.
  - rewrite (roll_pitch_controller_degenerate euler2RM
               NonlinearController_init acceleration_cmd attitude thrust_cmd)
      in E by (right; exact Hr).
    injection E as <-. split; reflexivity.
  - rewrite (roll_pitch_controller_degenerate euler2RM
               NonlinearController_init acceleration_cmd attitude thrust_cmd)
      in E by (left; exact Ht).
    injection E as <-. split; reflexivity.
Qed.

(** The bound 320000 is exceeded by no valid input, so not every bound
    is. *)
Lemma rates_do_not_exceed_every_bound :
  ~ rates_exceed 320000 /\ ~ (forall B : Q, rates_exceed B).
Proof.
  assert (H : ~ rates_exceed 320000).
  { intros (E & acc & att & t & rates & Hrot & _ & _ & Eq & Hex).
    destruct (roll_pitch_rates_below E acc att t rates Hrot Eq) as [Hx Hy].
    destruct Hex; lra. }
  split; [exact H|]. intro Hall. exact (H (Hall 320000)).
Qed.

(** C10 (as amended).  The rates of the roll-pitch stage are not
    clamped: on the non-degenerate branch the product
    (1/R22) * M . b_c_dot is returned as it is, and it grows with 1/R22,
    above 150000 for an attitude close to edge-on, far beyond the bounds
    of the other stages.  It does not exceed every bound: R is a
    rotation matrix, the tilt targets are clamped and |R22| > EPSILON,
    so each rate stays below 32/EPSILON = 320000. *)
Theorem roll_pitch_rates_unclamped :
  (forall (euler2RM : Q -> Q -> Q -> mat3) (self : NonlinearController)
          (acceleration_cmd : vec2) (attitude : vec3) (thrust_cmd : Q),
     let R := euler2RM (x3 attitude) (y3 attitude) (z3 attitude) in
     EPSILON < Qabs thrust_cmd ->
     EPSILON < Qabs (r22 R) ->
     roll_pitch_controller euler2RM self acceleration_cmd attitude thrust_cmd
       = Ok (smul2 (1 / r22 R)
               (np_matmul
                  (mk22 (r10 R) (- r00 R) (r11 R) (- r01 R))
                  (mk2 (PController_control (roll_controller_ self)
                          (tilt_target (x2 acceleration_cmd) thrust_cmd
                           - r02 R))
                       (PController_control (pitch_controller_ self)
                          (tilt_target (y2 acceleration_cmd) thrust_cmd
                           - r12 R)))))) /\
  rates_exceed 150000 /\
  (forall B : Q, 320000 <= B -> ~ rates_exceed B).
Proof.
  split; [|split].
  - intros E self acc att t. apply roll_pitch_controller_regular.
  - exists (fun _ _ _ => nearly_edge_on), (mk2 0 (-2)), (mk3 0 0 0), 1.
    eexists. cbn zeta.
    split; [repeat split; reflexivity|].
    split; [reflexivity|]. split; [reflexivity|].
    split; [reflexivity|]. left. reflexivity.
  - intros B HB (E & acc & att & t & rates & Hrot & _ & _ & Eq & Hex).
    destruct (roll_pitch_rates_below E acc att t rates Hrot Eq) as [Hx Hy].
    destruct Hex; lra.
Qed.

Lemma roll_pitch_rates_unclamped_witness :
  roll_pitch_controller (fun _ _ _ => nearly_edge_on)
    NonlinearController_init (mk2 0 (-2)) (mk3 0 0 0) 1
  = Ok (smul2 (1 / r22 nearly_edge_on)
          (np_matmul
             (mk22 (r10 nearly_edge_on) (- r00 nearly_edge_on)
                   (r11 nearly_edge_on) (- r01 nearly_edge_on))
             (mk2 (PController_control
                     (roll_controller_ NonlinearController_init)
                     (tilt_target 0 1 - r02 nearly_edge_on))
                  (PController_control
                     (pitch_controller_ NonlinearController_init)
                     (tilt_target (-2) 1 - r12 nearly_edge_on))))).
Proof.
  apply (proj1 roll_pitch_rates_unclamped (fun _ _ _ => nearly_edge_on)
           NonlinearController_init (mk2 0 (-2)) (mk3 0 0 0) 1);
    reflexivity.
Defined.

(** * Further properties of the stages *)

(** ** The yaw stage *)

(** X2.  With a non-negative gain the yaw-rate command is at most
    k_p * pi in magnitude, whatever the two yaw angles are. *)
Theorem yaw_control_bounded
    (self : NonlinearController) (yaw_cmd yaw : Q) :
  0 <= k_p (super (yaw_controller_ self)) ->
  exists yaw_rate,
    yaw_control self yaw_cmd yaw = Ok yaw_rate /\
    Qabs yaw_rate <= k_p (super (yaw_controller_ self)) * np_pi.
Proof.
  intro Hk. unfold yaw_control. rewrite normalize_angle_wrap. cbn [bind].
  eexists. split; [reflexivity|].
  unfold PController_control, PDController_control.
  destruct (wrap_angle_range (yaw_cmd - yaw)) as [H0 H1].
  pose proof np_pi_pos as Hpi.
  apply Qabs_Qle_condition. split; nra.
Qed.

Lemma yaw_control_bounded_witness :
  exists yaw_rate,
    yaw_control NonlinearController_init 3 (-3) = Ok yaw_rate /\
    Qabs yaw_rate <= (55 # 10) * np_pi.
Proof.
  apply (yaw_control_bounded NonlinearController_init 3 (-3)).
  discriminate.
Defined.

(** ** The sampler between two samples *)

(** Whichever of two consecutive samples np.argmin selects, the
    commands between their timestamps are those of the segment that
    joins them. *)
Lemma trajectory_control_adjacent (P : list vec3) (Y T : list Q) (now : Q)
    (i k : nat) :
  length P = length T -> length Y = length T ->
  (S i < length T)%nat ->
  np_argmin (map (fun t => Qabs (t - now)) T) = Ok k ->
  k = i \/ k = S i ->
  nth i T 0 <= now -> now < nth (S i) T 0 ->
  trajectory_control P Y T now =
    Ok (fst (interpolation (nth i P zero3) (nth (S i) P zero3)
                           (nth i T 0) (nth (S i) T 0) now),
        snd (interpolation (nth i P zero3) (nth (S i) P zero3)
                           (nth i T 0) (nth (S i) T 0) now),
        nth i Y 0).
Proof.
  intros HP HY Hi Hsel Hk H0 H1.
  assert (Hd : ~ nth (S i) T 0 - nth i T 0 == 0) by lra.
  pose proof (proj1 (np_argmin_nearest T now k) Hsel) as Hn.
  destruct Hk as [-> | ->].
  - now apply trajectory_control_forward.
  - apply trajectory_control_backward; trivial.
    + rewrite (py_getitem_pred P (S i) zero3) by lia.
      now rewrite Nat.sub_succ, Nat.sub_0_r.
    + rewrite (py_getitem_pred T (S i) 0) by lia.
      now rewrite Nat.sub_succ, Nat.sub_0_r.
    + rewrite (py_getitem_pred Y (S i) 0) by lia.
      now rewrite Nat.sub_succ, Nat.sub_0_r.
Qed.

(** X3.  For times[i] <= current_time < times[i+1], when np.argmin
    selects one of these two samples, whichever it is, the position
    command is the linear interpolation of pos[i] and pos[i+1] at
    current_time, the velocity command is the slope of that segment,
    and the yaw command is yaw[i], the yaw of the latest sample not
    after current_time. *)
Theorem trajectory_control_interpolates
    (P : list vec3) (Y T : list Q) (now : Q) (i k : nat) :
  length P = length T -> length Y = length T ->
  (S i < length T)%nat ->
  np_argmin (map (fun t => Qabs (t - now)) T) = Ok k ->
  k = i \/ k = S i ->
  nth i T 0 <= now -> now < nth (S i) T 0 ->
  exists p v,
    trajectory_control P Y T now = Ok (p, v, nth i Y 0) /\
    veq3 p (vadd3 (nth i P zero3)
              (vscale3 (vsub3 (nth (S i) P zero3) (nth i P zero3))
                 ((now - nth i T 0) / (nth (S i) T 0 - nth i T 0)))) /\
    veq3 v (vquot3 (vsub3 (nth (S i) P zero3) (nth i P zero3))
              (nth (S i) T 0 - nth i T 0)).
Proof.
  intros HP HY Hi Hsel Hk H0 H1.
  assert (Hd : ~ nth (S i) T 0 - nth i T 0 == 0) by lra.
  rewrite (trajectory_control_adjacent P Y T now i k HP HY Hi Hsel Hk H0 H1).
  eexists _, _. split; [reflexivity|]. split.
  - unfold interpolation, veq3; cbn; repeat split; field; exact Hd.
  - unfold interpolation, veq3; cbn; repeat split; reflexivity.
Qed.

Lemma trajectory_control_interpolates_witness :
  exists p v,
    trajectory_control [mk3 0 0 0; mk3 2 0 0; mk3 2 4 (-3)] [10; 20; 30]
      [0; 2; 4] (7 # 2) = Ok (p, v, nth 1%nat [10; 20; 30] 0) /\
    veq3 p (mk3 2 3 (- (9 # 4))) /\ veq3 v (mk3 0 2 (- (3 # 2))).
Proof.
  destruct (trajectory_control_interpolates
              [mk3 0 0 0; mk3 2 0 0; mk3 2 4 (-3)] [10; 20; 30]
              [0; 2; 4] (7 # 2) 1%nat 2%nat)
    as (p & v & E & Hp & Hv);
    try reflexivity; try discriminate.
  - simpl. lia.
  - now right.
  - exists p, v. split; [exact E|]. split.
    + destruct Hp as (A & B & C). repeat split.
      * rewrite A. reflexivity.
      * rewrite B. reflexivity.
      * rewrite C. reflexivity.
    + destruct Hv as (A & B & C). repeat split.
      * rewrite A. reflexivity.
      * rewrite B. reflexivity.
      * rewrite C. reflexivity.
Defined.

(** ** The sampler outside the trajectory and on degenerate trajectories *)

Lemma py_div_zero (x y : Q) : y == 0 -> py_div x y = Err DivisionByZero.
Proof.
  intro H. unfold py_div. apply Qeq_bool_iff in H. now rewrite H.
Qed.

Lemma vdiv3_zero (u : vec3) (s : Q) : s == 0 -> vdiv3 u s = Err DivisionByZero.
Proof.
  intro H. unfold vdiv3. now rewrite py_div_zero by exact H.
Qed.




(** X6.  An empty time list makes np.argmin fail with ValueError.  A single
    sample is held, with zero velocity, at and after its timestamp;
    before its timestamp the two samples read are that same sample and
    the division by time1 - time0 = 0 produces no command. *)
Theorem trajectory_control_short_trajectories :
  (forall (P : list vec3) (Y : list Q) (now : Q),
     trajectory_control P Y [] now = Err ValueError) /\
  (forall (p0 : vec3) (y0 t0 now : Q),
     t0 <= now ->
     exists p v,
       trajectory_control [p0] [y0] [t0] now = Ok (p, v, y0) /\
       veq3 p p0 /\ veq3 v zero3) /\
  (forall (p0 : vec3) (y0 t0 now : Q),
     now < t0 ->
     trajectory_control [p0] [y0] [t0] now = Err DivisionByZero).
Proof.
  split; [reflexivity|]. split.
  - intros p0 y0 t0 now Hle.
    assert (Hn : nearest [t0] now 0).
    { apply nearest_past_end with (n := 0%nat); trivial. intros j Hj. lia. }
    rewrite (trajectory_control_hold [p0] [y0] [t0] now 0 Hn
               eq_refl eq_refl eq_refl Hle).
    eexists _, _. split; [reflexivity|].
    unfold interpolation, veq3; cbn; repeat split; field.
  - intros p0 y0 t0 now Hlt.
    unfold trajectory_control. cbn [map np_argmin argmin_from bind].
    change (py_getitem [t0] (Z.of_nat 0)) with (Ok t0). cbn [bind].
    apply Qltb_lt in Hlt. rewrite Hlt.
    change (py_getitem [p0] (Z.of_nat 0 - 1)) with (Ok p0).
    change (py_getitem [p0] (Z.of_nat 0)) with (Ok p0).
    change (py_getitem [t0] (Z.of_nat 0 - 1)) with (Ok t0).
    change (py_getitem [y0] (Z.of_nat 0 - 1)) with (Ok y0).
    cbn [bind].
    rewrite vdiv3_zero by ring. reflexivity.
Qed.

Lemma trajectory_control_short_trajectories_witness :
  (exists p v,
     trajectory_control [mk3 1 2 3] [5] [4] 9 = Ok (p, v, 5) /\
     veq3 p (mk3 1 2 3) /\ veq3 v zero3) /\
  trajectory_control [mk3 1 2 3] [5] [4] 0 = Err DivisionByZero.
Proof.
  split.
  - apply (proj1 (proj2 trajectory_control_short_trajectories)).
    discriminate.
  - apply (proj2 (proj2 trajectory_control_short_trajectories)).
    reflexivity.
Defined.

(** X7.  The hold of the final waypoint is decided by the length of the
    position list.  If that list is longer than the time list, then at
    and after the final timestamp, when np.argmin selects the final
    sample, the forward branch is taken and
    time_trajectory[ind_min + 1] is out of range: the call ends with
    IndexError. *)
Theorem trajectory_control_longer_positions
    (P : list vec3) (Y T : list Q) (now : Q) (n : nat) :
  length T = S n ->
  (S n < length P)%nat ->
  np_argmin (map (fun t => Qabs (t - now)) T) = Ok n ->
  nth n T 0 <= now ->
  trajectory_control P Y T now = Err IndexError.
Proof.
  intros Hlen HP Hsel Hnow.
  pose proof (proj1 (np_argmin_nearest T now n) Hsel) as Hn.
  unfold trajectory_control.
  fold (time_distances T now). rewrite (first_min_np_argmin _ _ Hn).
  cbn [bind]. rewrite (py_getitem_nth T n 0) by lia. cbn [bind].
  apply Qltb_ge in Hnow. rewrite Hnow.
  destruct (py_getitem Y (Z.of_nat n)) as [y|e] eqn:Ey.
  - cbn [bind].
    replace (Z.of_nat (length P) - 1 <=? Z.of_nat n)%Z with false
      by (symmetry; apply Z.leb_gt; lia).
    rewrite (py_getitem_nth P n zero3) by lia. cbn [bind].
    rewrite (py_getitem_succ P n zero3) by lia. cbn [bind].
    assert (Et : py_getitem T (Z.of_nat n + 1) = Err IndexError).
    { unfold py_getitem.
      replace (Z.of_nat n + 1 <? 0)%Z with false
        by (symmetry; apply Z.ltb_ge; lia).
      replace (Z.of_nat n + 1 <? Z.of_nat (length T))%Z with false
        by (symmetry; apply Z.ltb_ge; lia).
      now rewrite andb_false_r. }
    rewrite Et. reflexivity.
  - cbn [bind]. f_equal.
    unfold py_getitem in Ey.
    destruct (Z.of_nat n <? 0)%Z;
      match type of Ey with
      | (if ?c then _ else _) = _ => destruct c
      end;
      try (injection Ey as <-; reflexivity);
      match type of Ey with
      | match ?o with _ => _ end = _ => destruct o
      end; try discriminate Ey; now injection Ey as <-.
Qed.

Lemma trajectory_control_longer_positions_witness :
  trajectory_control [mk3 0 0 0; mk3 2 0 0; mk3 5 0 0] [10; 20]
    [0; 2] 3 = Err IndexError.
Proof.
  apply (trajectory_control_longer_positions
           [mk3 0 0 0; mk3 2 0 0; mk3 5 0 0] [10; 20] [0; 2] 3 1%nat).
  - reflexivity.
  - simpl. lia.
  - reflexivity.
  - discriminate.
Defined.

(** ** More on np.clip *)

Lemma np_clip_comp (x x' lo hi : Q) :
  x == x' -> np_clip x lo hi == np_clip x' lo hi.
Proof.
  intro E. unfold np_clip. now rewrite E.
Qed.

Lemma np_clip_monotone (x x' lo hi : Q) :
  x <= x' -> np_clip x lo hi <= np_clip x' lo hi.
Proof.
  intro H. unfold np_clip.
  apply Q.min_le_compat_r. now apply Q.max_le_compat_r.
Qed.

Lemma np_clip_above (x lo hi : Q) :
  lo <= hi -> hi <= x -> np_clip x lo hi == hi.
Proof.
  intros H1 H2. unfold np_clip.
  rewrite (Q.max_l x lo) by lra. now apply Q.min_r.
Qed.

Lemma np_clip_below (x lo hi : Q) :
  lo <= hi -> x <= lo -> np_clip x lo hi == lo.
Proof.
  intros H1 H2. unfold np_clip.
  rewrite (Q.max_r x lo) by lra. now apply Q.min_l.
Qed.

(** ** The roll-pitch stage on all inputs *)

(** X8.  roll_pitch_controller returns rates for every input: none of its
    four divisions has a zero divisor when the two guards pass.  When
    |thrust_cmd| <= EPSILON or |R[2][2]| <= EPSILON the rates are
    (0, 0). *)
Theorem roll_pitch_controller_total
    (euler2RM : Q -> Q -> Q -> mat3) (self : NonlinearController)
    (acceleration_cmd : vec2) (attitude : vec3) (thrust_cmd : Q) :
  let R := euler2RM (x3 attitude) (y3 attitude) (z3 attitude) in
  exists rates,
    roll_pitch_controller euler2RM self acceleration_cmd attitude thrust_cmd
      = Ok rates /\
    (Qabs thrust_cmd <= EPSILON \/ Qabs (r22 R) <= EPSILON ->
     rates = mk2 0 0).
Proof.
  cbn zeta.
  set (R := euler2RM (x3 attitude) (y3 attitude) (z3 attitude)).
  destruct (Qlt_le_dec EPSILON (Qabs thrust_cmd)) as [Ht|Ht];
    [destruct (Qlt_le_dec EPSILON (Qabs (r22 R))) as [Hr|Hr]|].
  - rewrite (roll_pitch_controller_regular euler2RM self acceleration_cmd
               attitude thrust_cmd Ht Hr).
    eexists. split; [reflexivity|]. fold R. intros [H|H]; lra.
  - rewrite (roll_pitch_controller_degenerate euler2RM self acceleration_cmd
               attitude thrust_cmd) by (right; exact Hr).
    eexists. split; reflexivity.
  - rewrite (roll_pitch_controller_degenerate euler2RM self acceleration_cmd
               attitude thrust_cmd) by (left; exact Ht).
    eexists. split; reflexivity.
Qed.

Lemma roll_pitch_controller_total_witness :
  exists rates,
    roll_pitch_controller (fun _ _ _ => edge_on) NonlinearController_init
      (mk2 3 4) (mk3 0 0 0) 5 = Ok rates /\
    rates = mk2 0 0.
Proof.
  destruct (roll_pitch_controller_total (fun _ _ _ => edge_on)
              NonlinearController_init (mk2 3 4) (mk3 0 0 0) 5)
    as (rates & E & H).
  exists rates. split; [exact E|].
  apply H. right. discriminate.
Defined.

Lemma tilt_target_scale (a t s : Q) :
  ~ s == 0 -> ~ t == 0 -> tilt_target (s * a) (s * t) == tilt_target a t.
Proof.
  intros Hs Ht. unfold tilt_target. apply np_clip_comp.
  field. repeat split; trivial; apply DRONE_MASS_KG_nonzero.
Qed.

(** X9.  The rates depend on the acceleration command and the thrust command
    only through their ratio: multiplying both by the same factor leaves
    the rates unchanged, as long as the thrust guard still passes. *)
Theorem roll_pitch_controller_ratio
    (euler2RM : Q -> Q -> Q -> mat3) (self : NonlinearController)
    (acceleration_cmd : vec2) (attitude : vec3) (thrust_cmd s : Q) :
  let R := euler2RM (x3 attitude) (y3 attitude) (z3 attitude) in
  EPSILON < Qabs thrust_cmd ->
  EPSILON < Qabs (s * thrust_cmd) ->
  EPSILON < Qabs (r22 R) ->
  exists rates rates',
    roll_pitch_controller euler2RM self acceleration_cmd attitude thrust_cmd
      = Ok rates /\
    roll_pitch_controller euler2RM self
      (mk2 (s * x2 acceleration_cmd) (s * y2 acceleration_cmd)) attitude
      (s * thrust_cmd) = Ok rates' /\
    veq2 rates' rates.
Proof.
  cbn zeta. intros Ht Hst Hr.
  pose proof (Qabs_gt_nonzero _ _ EPSILON_nonneg Ht) as Htn.
  assert (Hs : ~ s == 0).
  { intro E. rewrite E in Hst.
    assert (Z : 0 * thrust_cmd == 0) by ring.
    rewrite Z in Hst. change (Qabs 0) with 0 in Hst.
    pose proof EPSILON_nonneg. lra. }
  rewrite (roll_pitch_controller_regular euler2RM self acceleration_cmd
             attitude thrust_cmd Ht Hr).
  rewrite (roll_pitch_controller_regular euler2RM self _ attitude
             (s * thrust_cmd) Hst Hr).
  eexists _, _. split; [reflexivity|]. split; [reflexivity|].
  unfold veq2, smul2, np_matmul, PController_control, PDController_control.
  cbn [x2 y2 m00 m01 m10 m11].
  rewrite !(tilt_target_scale _ thrust_cmd s Hs Htn).
  split; reflexivity.
Qed.

Lemma roll_pitch_controller_ratio_witness :
  exists rates rates',
    roll_pitch_controller (fun _ _ _ => pitched) NonlinearController_init
      (mk2 1 (-1)) (mk3 0 0 0) 4 = Ok rates /\
    roll_pitch_controller (fun _ _ _ => pitched) NonlinearController_init
      (mk2 (2 * 1) (2 * -1)) (mk3 0 0 0) (2 * 4) = Ok rates' /\
    veq2 rates' rates.
Proof.
  apply (roll_pitch_controller_ratio (fun _ _ _ => pitched)
           NonlinearController_init (mk2 1 (-1)) (mk3 0 0 0) 4 2);
    reflexivity.
Defined.

(** ** The body-rate stage with the gains of the constructor *)

(** X10.  With the gains set by the constructor the roll and pitch moments are
    0.1 times the rate error while that error is at most 10 rad/s in
    magnitude, and the yaw moment 0.075 times the rate error while it is
    at most 40/3 rad/s; beyond, each moment stays at MAX_TORQUE or
    -MAX_TORQUE, with the sign of the error. *)
Theorem body_rate_control_linear_range (body_rate_cmd body_rate : vec3) :
  let m := body_rate_control NonlinearController_init body_rate_cmd
             body_rate in
  let e_p := x3 body_rate_cmd - x3 body_rate in
  let e_q := y3 body_rate_cmd - y3 body_rate in
  let e_r := z3 body_rate_cmd - z3 body_rate in
  (Qabs e_p <= 10 -> x3 m == (1 # 10) * e_p) /\
  (10 <= e_p -> x3 m == MAX_TORQUE) /\
  (e_p <= - 10 -> x3 m == - MAX_TORQUE) /\
  (Qabs e_q <= 10 -> y3 m == (1 # 10) * e_q) /\
  (10 <= e_q -> y3 m == MAX_TORQUE) /\
  (e_q <= - 10 -> y3 m == - MAX_TORQUE) /\
  (Qabs e_r <= 40 # 3 -> z3 m == (3 # 40) * e_r) /\
  (40 # 3 <= e_r -> z3 m == MAX_TORQUE) /\
  (e_r <= - (40 # 3) -> z3 m == - MAX_TORQUE).
Proof.
  cbn zeta.
  unfold body_rate_control, PController_control, PDController_control.
  cbn [x3 y3 z3 NonlinearController_init p_controller_ q_controller_
       r_controller_ PController_init PDController_init super k_p k_d MOI].
  unfold MAX_TORQUE.
  assert (Hb : - (1) <= 1) by discriminate.
  repeat split; intro H;
    try (apply Qabs_Qle_condition in H;
         rewrite np_clip_inside by lra; ring);
    try (rewrite np_clip_above by lra; reflexivity);
    try (rewrite np_clip_below by lra; reflexivity).
Qed.

Lemma body_rate_control_linear_range_witness :
  x3 (body_rate_control NonlinearController_init (mk3 3 50 0) (mk3 1 0 20))
    == (1 # 10) * (3 - 1) /\
  y3 (body_rate_control NonlinearController_init (mk3 3 50 0) (mk3 1 0 20))
    == MAX_TORQUE /\
  z3 (body_rate_control NonlinearController_init (mk3 3 50 0) (mk3 1 0 20))
    == - MAX_TORQUE.
Proof.
  destruct (body_rate_control_linear_range (mk3 3 50 0) (mk3 1 0 20))
    as (Hp & _ & _ & _ & Hq & _ & _ & _ & Hr).
  split; [|split].
  - apply Hp. discriminate.
  - apply Hq. discriminate.
  - apply Hr. discriminate.
Defined.

(** ** The altitude stage: sign and order *)

Lemma altitude_control_regular
    (euler2RM : Q -> Q -> Q -> mat3) (self : NonlinearController)
    (altitude_cmd vertical_velocity_cmd altitude vertical_velocity : Q)
    (attitude : vec3) (acceleration_ff : Q) :
  let b_z := r22 (euler2RM (x3 attitude) (y3 attitude) (z3 attitude)) in
  EPSILON < Qabs b_z ->
  altitude_control euler2RM self altitude_cmd vertical_velocity_cmd
    altitude vertical_velocity attitude acceleration_ff =
  Ok (np_clip (DRONE_MASS_KG *
               PDController_control (altitude_controller_ self)
                 (altitude_cmd - altitude)
                 (vertical_velocity_cmd - vertical_velocity)
                 acceleration_ff / b_z) 0 MAX_THRUST).
Proof.
  cbn zeta. intro Hb. unfold altitude_control.
  pose proof (Qabs_gt_nonzero _ _ EPSILON_nonneg Hb) as Hne.
  apply Qltb_lt in Hb. rewrite Hb.
  rewrite py_div_ok by exact Hne. reflexivity.
Qed.

Lemma EPSILON_pos : 0 < EPSILON.
Proof. reflexivity. Qed.

(** X11.  With non-negative gains the thrust follows the demand in order:
    raising the altitude command, the vertical-velocity command or the
    feed-forward never lowers the thrust when the vehicle is upright
    (b_z > EPSILON), and never raises it when the vehicle is inverted
    (b_z < -EPSILON). *)
Theorem altitude_control_monotone
    (euler2RM : Q -> Q -> Q -> mat3) (self : NonlinearController)
    (altitude_cmd altitude_cmd' vertical_velocity_cmd vertical_velocity_cmd'
       altitude vertical_velocity : Q)
    (attitude : vec3) (acceleration_ff acceleration_ff' : Q) :
  let b_z := r22 (euler2RM (x3 attitude) (y3 attitude) (z3 attitude)) in
  0 <= k_p (altitude_controller_ self) ->
  0 <= k_d (altitude_controller_ self) ->
  altitude_cmd <= altitude_cmd' ->
  vertical_velocity_cmd <= vertical_velocity_cmd' ->
  acceleration_ff <= acceleration_ff' ->
  EPSILON < Qabs b_z ->
  exists thrust thrust',
    altitude_control euler2RM self altitude_cmd vertical_velocity_cmd
      altitude vertical_velocity attitude acceleration_ff = Ok thrust /\
    altitude_control euler2RM self altitude_cmd' vertical_velocity_cmd'
      altitude vertical_velocity attitude acceleration_ff' = Ok thrust' /\
    (0 < b_z -> thrust <= thrust') /\
    (b_z < 0 -> thrust' <= thrust).
Proof.
  cbn zeta. intros Hkp Hkd Ha Hv Hf Hb.
  set (b_z := r22 (euler2RM (x3 attitude) (y3 attitude) (z3 attitude))) in *.
  rewrite !(altitude_control_regular euler2RM self _ _ altitude
              vertical_velocity attitude _ Hb).
  fold b_z.
  eexists _, _. split; [reflexivity|]. split; [reflexivity|].
  unfold PDController_control.
  set (u := k_p (altitude_controller_ self) * (altitude_cmd - altitude)
            + k_d (altitude_controller_ self)
              * (vertical_velocity_cmd - vertical_velocity)
            + acceleration_ff).
  set (u' := k_p (altitude_controller_ self) * (altitude_cmd' - altitude)
             + k_d (altitude_controller_ self)
               * (vertical_velocity_cmd' - vertical_velocity)
             + acceleration_ff').
  assert (Hu : u <= u') by (unfold u, u'; nra).
  assert (Hm : 0 < DRONE_MASS_KG) by reflexivity.
  assert (Hmu : DRONE_MASS_KG * u <= DRONE_MASS_KG * u') by nra.
  split; intro Hs; apply np_clip_monotone.
  - unfold Qdiv. apply Qmult_le_compat_r; [exact Hmu|].
    apply Qlt_le_weak, Qinv_lt_0_compat. exact Hs.
  - assert (E : forall w, DRONE_MASS_KG * w / b_z
                          == - (DRONE_MASS_KG * w) * / (- b_z))
      by (intro w; field; lra).
    rewrite !E.
    apply Qmult_le_compat_r; [lra|].
    apply Qlt_le_weak, Qinv_lt_0_compat. lra.
Qed.

Lemma altitude_control_monotone_witness :
  exists thrust thrust',
    altitude_control (fun _ _ _ => pitched) NonlinearController_init
      1 0 0 0 (mk3 0 0 0) 0 = Ok thrust /\
    altitude_control (fun _ _ _ => pitched) NonlinearController_init
      2 0 0 0 (mk3 0 0 0) 0 = Ok thrust' /\
    thrust <= thrust'.
Proof.
  destruct (altitude_control_monotone (fun _ _ _ => pitched)
              NonlinearController_init 1 2 0 0 0 0 (mk3 0 0 0) 0 0)
    as (t & t' & E & E' & Hup & _); try discriminate; try reflexivity.
  exists t, t'. split; [exact E|]. split; [exact E'|].
  apply Hup. reflexivity.
Defined.

(** ** From the altitude stage to the roll-pitch stage *)

Lemma altitude_control_range
    (euler2RM : Q -> Q -> Q -> mat3) (self : NonlinearController)
    (altitude_cmd vertical_velocity_cmd altitude vertical_velocity : Q)
    (attitude : vec3) (acceleration_ff thrust : Q) :
  altitude_control euler2RM self altitude_cmd vertical_velocity_cmd
    altitude vertical_velocity attitude acceleration_ff = Ok thrust ->
  0 <= thrust /\ thrust <= MAX_THRUST.
Proof.
  intro E.
  set (b_z := r22 (euler2RM (x3 attitude) (y3 attitude) (z3 attitude))).
  destruct (Qlt_le_dec EPSILON (Qabs b_z)) as [Hb|Hb].
  - rewrite (altitude_control_regular euler2RM self altitude_cmd
               vertical_velocity_cmd altitude vertical_velocity attitude
               acceleration_ff Hb) in E.
    injection E as <-. apply np_clip_bounds. discriminate.
  - unfold altitude_control in E. fold b_z in E.
    apply Qltb_ge in Hb. rewrite Hb in E. injection E as <-.
    split; discriminate.
Qed.

(** X12.  A thrust command of the altitude stage that is at most EPSILON
    switches the roll-pitch stage off: fed with it, roll_pitch_controller
    returns the rates (0, 0) for every acceleration command and every
    attitude.  This is the case whenever the vehicle is upright
    (b_z > EPSILON) and the vertical demand k_p*e + k_d*e_dot + ff is not
    positive: the thrust is then 0. *)
Theorem zero_thrust_zero_rates
    (euler2RM : Q -> Q -> Q -> mat3) (self : NonlinearController)
    (altitude_cmd vertical_velocity_cmd altitude vertical_velocity : Q)
    (attitude : vec3) (acceleration_ff : Q) :
  let b_z := r22 (euler2RM (x3 attitude) (y3 attitude) (z3 attitude)) in
  (forall thrust,
     altitude_control euler2RM self altitude_cmd vertical_velocity_cmd
       altitude vertical_velocity attitude acceleration_ff = Ok thrust ->
     thrust <= EPSILON ->
     forall (acceleration_cmd : vec2) (attitude' : vec3),
       roll_pitch_controller euler2RM self acceleration_cmd attitude' thrust
         = Ok (mk2 0 0)) /\
  (EPSILON < b_z ->
   PDController_control (altitude_controller_ self)
     (altitude_cmd - altitude) (vertical_velocity_cmd - vertical_velocity)
     acceleration_ff <= 0 ->
   exists thrust,
     altitude_control euler2RM self altitude_cmd vertical_velocity_cmd
       altitude vertical_velocity attitude acceleration_ff = Ok thrust /\
     thrust == 0 /\
     forall (acceleration_cmd : vec2) (attitude' : vec3),
       roll_pitch_controller euler2RM self acceleration_cmd attitude' thrust
         = Ok (mk2 0 0)).
Proof.
  cbn zeta.
  assert (Hoff : forall thrust,
            altitude_control euler2RM self altitude_cmd vertical_velocity_cmd
              altitude vertical_velocity attitude acceleration_ff = Ok thrust ->
            thrust <= EPSILON ->
            forall (acceleration_cmd : vec2) (attitude' : vec3),
              roll_pitch_controller euler2RM self acceleration_cmd attitude'
                thrust = Ok (mk2 0 0)).
  { intros thrust E Hle acc att'.
    destruct (altitude_control_range _ _ _ _ _ _ _ _ _ E) as [H0 _].
    apply roll_pitch_controller_degenerate. left.
    rewrite Qabs_pos by exact H0. exact Hle. }
  split; [exact Hoff|].
  intros Hb Hu.
  set (b_z := r22 (euler2RM (x3 attitude) (y3 attitude) (z3 attitude))) in *.
  pose proof EPSILON_pos as He.
  assert (Hb' : EPSILON < Qabs b_z) by (rewrite Qabs_pos; lra).
  pose proof (altitude_control_regular euler2RM self altitude_cmd
                vertical_velocity_cmd altitude vertical_velocity attitude
                acceleration_ff Hb') as E.
  cbn zeta in E. fold b_z in E.
  eexists. split; [exact E|].
  assert (Hz : np_clip
                 (DRONE_MASS_KG *
                  PDController_control (altitude_controller_ self)
                    (altitude_cmd - altitude)
                    (vertical_velocity_cmd - vertical_velocity)
                    acceleration_ff / b_z) 0 MAX_THRUST == 0).
  { apply np_clip_below; [discriminate|].
    assert (Hm : 0 < DRONE_MASS_KG) by reflexivity.
    apply Qle_shift_div_r; [lra|]. nra. }
  split; [exact Hz|].
  apply (Hoff _ E). rewrite Hz. lra.
Qed.

Lemma zero_thrust_zero_rates_witness :
  exists thrust,
    altitude_control (fun _ _ _ => level) NonlinearController_init
      0 0 5 0 (mk3 0 0 0) 0 = Ok thrust /\
    thrust == 0 /\
    roll_pitch_controller (fun _ _ _ => level) NonlinearController_init
      (mk2 3 (-4)) (mk3 0 0 0) thrust = Ok (mk2 0 0).
Proof.
  destruct (proj2 (zero_thrust_zero_rates (fun _ _ _ => level)
                     NonlinearController_init 0 0 5 0 (mk3 0 0 0) 0))
    as (t & E & Hz & Hoff).
  - reflexivity.
  - discriminate.
  - exists t. split; [exact E|]. split; [exact Hz|]. apply Hoff.
Defined.

(** ** The position command stays between the two waypoints *)




(** * The binary64 embedding *)

(** ** Rounding never produces nan *)

Lemma shr_1_nonneg (mrs : shr_record) :
  (0 <= shr_m mrs)%Z -> (0 <= shr_m (shr_1 mrs))%Z.
Proof.
  destruct mrs as [m r s]. cbn [shr_m]. intro H.
  destruct m as [|p|p]; [cbn; lia| |lia].
  destruct p; cbn; lia.
Qed.

Lemma iter_shr_1_nonneg (p : positive) (mrs : shr_record) :
  (0 <= shr_m mrs)%Z -> (0 <= shr_m (iter_pos shr_1 p mrs))%Z.
Proof.
  revert mrs. induction p as [p IH|p IH|]; intros mrs H; cbn [iter_pos].
  - apply IH, IH. now apply shr_1_nonneg.
  - now apply IH, IH.
  - now apply shr_1_nonneg.
Qed.

Lemma shr_fexp_nonneg (m e : Z) (l : location) :
  (0 <= m)%Z ->
  (0 <= shr_m (fst (shr_fexp B64.prec B64.emax m e l)))%Z.
Proof.
  intro H. unfold shr_fexp, shr.
  assert (H0 : (0 <= shr_m (shr_record_of_loc m l))%Z).
  { destruct l as [|[| |]]; exact H. }
  destruct (fexp B64.prec B64.emax (Zdigits2 m + e) - e)%Z;
    cbn [fst]; trivial.
  now apply iter_shr_1_nonneg.
Qed.

Lemma round_nearest_even_nonneg (m : Z) (l : location) :
  (0 <= m)%Z -> (0 <= round_nearest_even m l)%Z.
Proof.
  intro H. destruct l as [|[| |]]; cbn [round_nearest_even]; try lia.
  destruct (Z.even m); lia.
Qed.

Lemma binary_round_aux_not_nan (s : bool) (m e : Z) (l : location) :
  (0 <= m)%Z ->
  B64.is_nan (binary_round_aux B64.prec B64.emax s m e l) = false.
Proof.
  intro H. unfold binary_round_aux.
  pose proof (shr_fexp_nonneg m e l H) as H1.
  destruct (shr_fexp B64.prec B64.emax m e l) as [mrs' e'].
  cbn [fst] in H1.
  pose proof (shr_fexp_nonneg
                (round_nearest_even (shr_m mrs') (loc_of_shr_record mrs'))
                e' loc_Exact (round_nearest_even_nonneg _ _ H1)) as H2.
  destruct (shr_fexp B64.prec B64.emax
              (round_nearest_even (shr_m mrs') (loc_of_shr_record mrs'))
              e' loc_Exact) as [mrs'' e''].
  cbn [fst] in H2.
  destruct (shr_m mrs'') as [|p|p]; [reflexivity| |lia].
  destruct (e'' <=? B64.emax - B64.prec)%Z; reflexivity.
Qed.

Lemma binary_normalize_not_nan (m e : Z) :
  B64.is_nan (binary_normalize B64.prec B64.emax m e false) = false.
Proof.
  unfold binary_normalize, binary_round.
  destruct m as [|p|p]; [reflexivity| |].
  - destruct (shl_align p e _) as [mz ez].
    now apply binary_round_aux_not_nan.
  - destruct (shl_align p e _) as [mz ez].
    now apply binary_round_aux_not_nan.
Qed.

(** ** Which operations can produce nan *)

Lemma b64_sub_finite_not_nan (x y : B64.float) :
  B64.is_finite x = true -> B64.is_finite y = true ->
  B64.is_nan (B64.sub x y) = false.
Proof.
  destruct x as [sx|sx| |sx mx ex], y as [sy|sy| |sy my ey];
    try discriminate; intros _ _; unfold B64.sub, SFsub.
  - destruct sx, sy; reflexivity.
  - reflexivity.
  - reflexivity.
  - apply binary_normalize_not_nan.
Qed.

Lemma b64_add_not_nan_finite (x y : B64.float) :
  B64.is_nan x = false -> B64.is_finite y = true ->
  B64.is_nan (B64.add x y) = false.
Proof.
  destruct x as [sx|sx| |sx mx ex], y as [sy|sy| |sy my ey];
    try discriminate; intros _ _; unfold B64.add, SFadd;
    try reflexivity.
  - destruct sx, sy; reflexivity.
  - apply binary_normalize_not_nan.
Qed.

Lemma b64_add_finite_not_nan (x y : B64.float) :
  B64.is_finite x = true -> B64.is_finite y = true ->
  B64.is_nan (B64.add x y) = false.
Proof.
  intros Hx Hy. apply b64_add_not_nan_finite; trivial.
  destruct x; trivial; discriminate.
Qed.

(** A product with a finite, non-zero factor is nan only if the other
    factor is. *)
Lemma b64_mul_pos_not_nan (m : positive) (e : Z) (x : B64.float) :
  B64.is_nan x = false -> B64.is_nan (B64.mul (B64.pos m e) x) = false.
Proof.
  destruct x as [sx|sx| |sx mx ex]; try discriminate; intros _;
    unfold B64.mul, B64.pos, SFmul; try reflexivity.
  apply binary_round_aux_not_nan. lia.
Qed.

(** A quotient by a finite, non-zero divisor is nan only if the
    dividend is. *)
Lemma b64_div_finite_not_nan (x : B64.float) (s : bool) (m : positive)
    (e : Z) :
  B64.is_nan x = false ->
  B64.is_nan (B64.div x (S754_finite s m e)) = false.
Proof.
  destruct x as [sx|sx| |sx mx ex]; try discriminate; intros _;
    unfold B64.div, SFdiv; try reflexivity.
  unfold SFdiv_core_binary.
  set (m' := match (ex - e - _)%Z with
             | Z0 => Zpos mx
             | Zpos _ => Z.shiftl (Zpos mx) _
             | Zneg _ => 0%Z
             end).
  assert (Hm' : (0 <= m')%Z).
  { unfold m'. destruct (ex - e - _)%Z; try lia.
    apply Z.shiftl_nonneg. lia. }
  pose proof (Z.div_pos m' (Zpos m) Hm' ltac:(lia)) as Hq.
  unfold Z.div in Hq.
  destruct (Z.div_eucl m' (Zpos m)) as [q r]. cbn [fst] in Hq.
  now apply binary_round_aux_not_nan.
Qed.

(** ** np.clip on binary64 numbers *)

Lemma b64_ltb_leb (x y : B64.float) :
  B64.ltb x y = true -> B64.leb x y = true.
Proof.
  unfold B64.ltb, B64.leb, SFltb, SFleb.
  destruct (SFcompare x y) as [[| |]|]; trivial; discriminate.
Qed.

Lemma b64_np_clip_nan (x lo hi : B64.float) :
  B64.is_nan x = true -> B64.np_clip x lo hi = B64.nan.
Proof.
  destruct x; try discriminate. reflexivity.
Qed.

(** Between the bounds 0.0 and MAX_THRUST the clamp of a number is a
    number between them. *)
Lemma b64_np_clip_thrust (x : B64.float) :
  B64.is_nan x = false ->
  B64.leb B64.zero (B64.np_clip x B64.zero B64.MAX_THRUST) = true /\
  B64.leb (B64.np_clip x B64.zero B64.MAX_THRUST) B64.MAX_THRUST = true /\
  B64.is_nan (B64.np_clip x B64.zero B64.MAX_THRUST) = false.
Proof.
  intro Hx. unfold B64.np_clip. rewrite Hx.
  destruct (B64.ltb B64.zero x) eqn:E0.
  - rewrite Hx. destruct (B64.ltb x B64.MAX_THRUST) eqn:E1.
    + repeat split; trivial; now apply b64_ltb_leb.
    + repeat split; reflexivity.
  - cbn [B64.is_nan B64.zero]. repeat split; reflexivity.
Qed.

(** ** The altitude stage on binary64 numbers *)

(** On finite binary64 inputs the feedback sum can be nan: with
    altitude_cmd = 1e308 and vertical_velocity_cmd = -1e308 (altitude,
    vertical velocity and feed-forward 0, level attitude, the gains of
    the constructor) the two products overflow to +inf and -inf, their
    sum is nan, and np.clip returns nan: the thrust is not in
    [0, MAX_THRUST]. *)
Lemma b64_altitude_control_overflow_nan :
  B64.is_finite B64.f_1e308 = true /\
  B64.is_finite (B64.neg B64.f_1e308) = true /\
  B64.altitude_control (fun _ _ _ => B64.level) B64.NonlinearController_init
    B64.f_1e308 (B64.neg B64.f_1e308) B64.zero B64.zero
    (B64.mk3 B64.zero B64.zero B64.zero) B64.zero = B64.nan /\
  B64.leb B64.zero B64.nan = false /\
  B64.leb B64.nan B64.MAX_THRUST = false.
Proof. repeat split; vm_compute; reflexivity. Qed.

(** C1 (as amended).  On binary64 numbers, for every input:
    when |b_z| > EPSILON does not hold (b_z = 0 and a nan b_z included)
    altitude_control returns exactly 0.0 and b_z is not divided by;
    whenever the feedback sum u = k_p*e + k_d*e_dot + ff is not nan and
    b_z is finite, the thrust is a number in [0, MAX_THRUST];
    u is not nan whenever its two products and the feed-forward are
    finite, that is unless a product overflows; when u is nan and the
    guard passes, the thrust is nan. *)
Theorem b64_altitude_control_thrust_range
    (euler2RM : B64.float -> B64.float -> B64.float -> B64.mat3)
    (self : B64.NonlinearController)
    (altitude_cmd vertical_velocity_cmd altitude vertical_velocity
       : B64.float)
    (attitude : B64.vec3) (acceleration_ff : B64.float) :
  let b_z := B64.r22 (euler2RM (B64.x3 attitude) (B64.y3 attitude)
                        (B64.z3 attitude)) in
  let gains := B64.altitude_controller_ self in
  let error_z := B64.sub altitude_cmd altitude in
  let error_z_dot := B64.sub vertical_velocity_cmd vertical_velocity in
  let u := B64.PDController_control gains error_z error_z_dot
             acceleration_ff in
  let thrust := B64.altitude_control euler2RM self altitude_cmd
                  vertical_velocity_cmd altitude vertical_velocity attitude
                  acceleration_ff in
  (B64.ltb B64.EPSILON (B64.abs b_z) = false -> thrust = B64.zero) /\
  (B64.is_nan u = false -> B64.is_finite b_z = true ->
   B64.leb B64.zero thrust = true /\
   B64.leb thrust B64.MAX_THRUST = true /\
   B64.is_nan thrust = false) /\
  (B64.is_finite (B64.mul (B64.k_p gains) error_z) = true ->
   B64.is_finite (B64.mul (B64.k_d gains) error_z_dot) = true ->
   B64.is_finite acceleration_ff = true ->
   B64.is_nan u = false) /\
  (B64.ltb B64.EPSILON (B64.abs b_z) = true -> B64.is_nan u = true ->
   B64.is_nan thrust = true).
Proof.
  cbn zeta. unfold B64.altitude_control.
  set (b_z := B64.r22 (euler2RM (B64.x3 attitude) (B64.y3 attitude)
                         (B64.z3 attitude))).
  set (u := B64.PDController_control (B64.altitude_controller_ self)
              (B64.sub altitude_cmd altitude)
              (B64.sub vertical_velocity_cmd vertical_velocity)
              acceleration_ff).
  split; [|split; [|split]].
  - intros ->. reflexivity.
  - intros Hu Hb. destruct (B64.ltb B64.EPSILON (B64.abs b_z)) eqn:Eg.
    + apply b64_np_clip_thrust.
      destruct b_z as [sb|sb| |sb mb eb]; try discriminate Hb.
      * discriminate Eg.
      * apply b64_div_finite_not_nan.
        now apply b64_mul_pos_not_nan.
    + repeat split; reflexivity.
  - intros H1 H2 H3. unfold u, B64.PDController_control.
    apply b64_add_not_nan_finite; trivial.
    now apply b64_add_finite_not_nan.
  - intros -> Hu. rewrite b64_np_clip_nan; [reflexivity|].
    destruct u; try discriminate Hu.
    unfold B64.mul, SFmul, B64.DRONE_MASS_KG, B64.pos.
    destruct b_z; reflexivity.
Qed.

Lemma b64_altitude_control_thrust_range_witness :
  B64.leb B64.zero
    (B64.altitude_control (fun _ _ _ => B64.level)
       B64.NonlinearController_init B64.f_3 B64.zero B64.one B64.zero
       (B64.mk3 B64.zero B64.zero B64.zero) B64.zero) = true /\
  B64.leb
    (B64.altitude_control (fun _ _ _ => B64.level)
       B64.NonlinearController_init B64.f_3 B64.zero B64.one B64.zero
       (B64.mk3 B64.zero B64.zero B64.zero) B64.zero)
    B64.MAX_THRUST = true /\
  B64.is_nan
    (B64.altitude_control (fun _ _ _ => B64.level)
       B64.NonlinearController_init B64.f_3 B64.zero B64.one B64.zero
       (B64.mk3 B64.zero B64.zero B64.zero) B64.zero) = false.
Proof.
  destruct (b64_altitude_control_thrust_range (fun _ _ _ => B64.level)
              B64.NonlinearController_init B64.f_3 B64.zero B64.one B64.zero
              (B64.mk3 B64.zero B64.zero B64.zero) B64.zero)
    as (_ & Hrange & Hnum & _).
  apply Hrange.
  - apply Hnum; vm_compute; reflexivity.
  - reflexivity.
Defined.

(** ** normalize_angle on binary64 numbers *)


(** On its neighbours the binary64 code agrees with the exact model:
    -pi and the number just above it are returned unchanged, 3*pi/2
    goes to -pi/2, and +pi goes to -pi. *)
Lemma b64_normalize_angle_examples :
  B64.normalize_angle (B64.neg B64.np_pi) = B64.neg B64.np_pi /\
  B64.normalize_angle (S754_finite true 7074237752028439 (-51))
    = S754_finite true 7074237752028439 (-51) /\
  B64.normalize_angle (B64.div (B64.mul B64.f_3 B64.np_pi) B64.two)
    = B64.neg (B64.div B64.np_pi B64.two) /\
  B64.normalize_angle B64.np_pi = B64.neg B64.np_pi.
Proof. repeat split; vm_compute; reflexivity. Qed.

(** ** The nearest sample on binary64 numbers *)

(** With the times 0, 2, 3 and current_time 1e17 the three distances
    all round to 1e17: np.argmin returns index 0, the forward branch
    from sample 0 is taken and the position command is extrapolated to
    1e17 along the first segment instead of being held at the final
    waypoint. *)
Lemma b64_trajectory_control_absorbed :
  B64.np_argmin
    (map (fun t => B64.abs (B64.sub t B64.f_1e17))
         [B64.zero; B64.two; B64.f_3]) = Ok 0%nat /\
  B64.trajectory_control
    [B64.mk3 B64.zero B64.zero B64.zero; B64.mk3 B64.two B64.zero B64.zero;
     B64.mk3 B64.f_3 B64.zero B64.zero]
    [B64.zero; B64.one; B64.two] [B64.zero; B64.two; B64.f_3] B64.f_1e17
  = Ok (B64.mk3 B64.f_1e17 B64.zero B64.zero,
        B64.mk3 B64.one B64.zero B64.zero, B64.zero).
Proof. split; vm_compute; reflexivity. Qed.

(** ** The hold of the final waypoint on binary64 numbers *)

Lemma b64_sub_self (a : B64.float) :
  B64.is_finite a = true -> B64.sub a a = B64.zero.
Proof.
  destruct a as [s|s| |s m e]; try discriminate; intros _.
  - destruct s; reflexivity.
  - unfold B64.sub, SFsub. rewrite Z.min_id.
    unfold shl_align. rewrite Z.sub_diag. cbn [fst].
    reflexivity.
Qed.

Lemma b64_eqb_refl (a : B64.float) :
  B64.is_finite a = true -> B64.eqb a a = true.
Proof.
  destruct a as [s|s| |s m e]; try discriminate; intros _.
  - reflexivity.
  - unfold B64.eqb, SFeqb, SFcompare.
    rewrite Z.compare_refl, Pos.compare_cont_refl.
    destruct s; reflexivity.
Qed.

(** One coordinate of the commands of the hold branch: position0 and
    position1 are the same finite number [a], time0 = 0.0 and
    time1 = 1.0. *)
Lemma b64_hold_coordinate (a now : B64.float) :
  B64.is_finite a = true -> B64.is_finite now = true ->
  B64.eqb
    (B64.add (B64.div (B64.mul (B64.sub a a) (B64.sub now B64.zero))
                      (B64.sub B64.one B64.zero)) a) a = true /\
  B64.div (B64.sub a a) (B64.sub B64.one B64.zero) = B64.zero.
Proof.
  intros Ha Hn. rewrite (b64_sub_self a Ha).
  split; [|reflexivity].
  destruct now as [sn|sn| |sn mn en]; try discriminate Hn;
    destruct a as [sa|sa| |sa ma ea]; try discriminate Ha.
  - destruct sn, sa; reflexivity.
  - destruct sn; cbn; apply (b64_eqb_refl (S754_finite sa ma ea));
      reflexivity.
  - destruct sn, sa; reflexivity.
  - destruct sn; cbn; apply (b64_eqb_refl (S754_finite sa ma ea));
      reflexivity.
Qed.

(** C5 (as amended).  On binary64 numbers, for every trajectory with a
    finite final waypoint and every finite current_time at or past the
    final timestamp for which np.argmin selects the final sample,
    trajectory_control holds position: the position command equals the
    final waypoint's position, the velocity command is exactly
    (0, 0, 0) and the yaw command is the final yaw; the denominator is
    1.0 - 0.0.  (The final sample is not the one selected when its
    timestamp is repeated, nor when the distances to it and to an
    earlier sample round to the same number.) *)
Theorem b64_trajectory_control_past_end
    (P : list B64.vec3) (Y T : list B64.float) (now : B64.float) (n : nat) :
  length P = length T -> length Y = length T ->
  length T = S n ->
  B64.np_argmin (map (fun t => B64.abs (B64.sub t now)) T) = Ok n ->
  B64.ltb now (nth n T B64.zero) = false ->
  B64.is_finite now = true ->
  B64.finite3 (nth n P (B64.mk3 B64.zero B64.zero B64.zero)) = true ->
  exists p,
    B64.trajectory_control P Y T now
      = Ok (p, B64.mk3 B64.zero B64.zero B64.zero, nth n Y B64.zero) /\
    B64.eqb3 p (nth n P (B64.mk3 B64.zero B64.zero B64.zero)) = true.
Proof.
  intros HP HY Hlen Hsel Hlt Hnow Hfin.
  unfold B64.trajectory_control. rewrite Hsel. cbn [bind].
  rewrite (py_getitem_nth T n B64.zero) by lia. cbn [bind].
  rewrite Hlt.
  rewrite (py_getitem_nth Y n B64.zero) by lia. cbn [bind].
  replace (Z.of_nat (length P) - 1 <=? Z.of_nat n)%Z with true
    by (symmetry; apply Z.leb_le; lia).
  rewrite (py_getitem_nth P n (B64.mk3 B64.zero B64.zero B64.zero)) by lia.
  cbn [bind].
  set (q := nth n P (B64.mk3 B64.zero B64.zero B64.zero)) in *.
  unfold B64.finite3 in Hfin.
  apply andb_true_iff in Hfin. destruct Hfin as [Hfin Hz].
  apply andb_true_iff in Hfin. destruct Hfin as [Hx Hy].
  destruct (b64_hold_coordinate (B64.x3 q) now Hx Hnow) as [Px Vx].
  destruct (b64_hold_coordinate (B64.y3 q) now Hy Hnow) as [Py Vy].
  destruct (b64_hold_coordinate (B64.z3 q) now Hz Hnow) as [Pz Vz].
  unfold B64.vadd3, B64.vdiv3, B64.vscale3, B64.vsub3.
  cbn [B64.x3 B64.y3 B64.z3].
  rewrite Vx, Vy, Vz.
  eexists. split; [reflexivity|].
  unfold B64.eqb3. cbn [B64.x3 B64.y3 B64.z3]. now rewrite Px, Py, Pz.
Qed.

Lemma b64_trajectory_control_past_end_witness :
  exists p,
    B64.trajectory_control
      [B64.mk3 B64.zero B64.zero B64.zero; B64.mk3 B64.two B64.one B64.zero;
       B64.mk3 B64.f_3 (B64.neg B64.one) B64.two]
      [B64.zero; B64.one; B64.two] [B64.zero; B64.two; B64.f_3]
      (B64.add B64.f_3 B64.two)
    = Ok (p, B64.mk3 B64.zero B64.zero B64.zero, B64.two) /\
    B64.eqb3 p (B64.mk3 B64.f_3 (B64.neg B64.one) B64.two) = true.
Proof.
  apply (b64_trajectory_control_past_end
           [B64.mk3 B64.zero B64.zero B64.zero;
            B64.mk3 B64.two B64.one B64.zero;
            B64.mk3 B64.f_3 (B64.neg B64.one) B64.two]
           [B64.zero; B64.one; B64.two] [B64.zero; B64.two; B64.f_3]
           (B64.add B64.f_3 B64.two) 2%nat);
    vm_compute; reflexivity.
Defined.
